(** * flyctl: the preparer pipeline and the organization resolver

    A shallow embedding of [internal/cli/internal/command/command.go]
    (preparers, [prepare], [newRunE], [RequireSession], [RequireOrg],
    [selectOrg], [selectOrganization]) and of the legacy commands that call
    the organization selector ([runMove], [runDomainsList]).

    Go code that talks to the outside (logger, remote API, interactive
    prompt, file system) is written in a small monad [M] that threads a
    [World]: the read-only [Host] the process runs on, the trace of
    observable [Event]s produced so far, and the replies the user is going
    to give to prompts.  A Go panic is an outcome of its own. *)

From Stdlib Require Import String Ascii List Sorted Permutation Lia.
From stdpp Require Import base option list strings gmap.

Local Open Scope string_scope.

(** ** Errors

    A Go [error] is an interface value that may be nil: [error] below is
    [option Err].  The constructors are the error values the modelled code
    builds or tests for. *)

#[warnings="-register-all"]
Inductive Err : Type :=
| ErrNoAuthToken                                  (* client.ErrNoAuthToken *)
| ErrNotExist                                     (* fs.ErrNotExist *)
| InterruptErr                                    (* terminal.InterruptErr of survey *)
| EOF                                             (* io.EOF *)
| errorString (msg : string)                      (* errors.New(msg), opaque failures *)
| PathError (op path : string) (cause : Err)      (* *fs.PathError, unwraps to cause *)
| Errorf_w (format : string) (cause : Err)        (* fmt.Errorf(format, err) with %w *)
| Errorf_q (format : string) (operand : string)   (* fmt.Errorf(format, s) with %q *)
| Errorf_s (format : string) (operand : option Err) (* fmt.Errorf(format, err) with %s *)
| Wrap (cause : Err) (message : string)           (* pkg/errors.Wrap *)
| WithMessage (cause : Err) (message : string).   (* pkg/errors.WithMessage *)

Abbreviation error := (option Err).

(** [errors.Is(err, fs.ErrNotExist)]: follows the [Unwrap] chain.  [%s]
    formats the operand's message only and does not wrap it. *)
Fixpoint errors_Is_ErrNotExist (e : Err) : bool :=
  match e with
  | ErrNotExist => true
  | PathError _ _ c | Errorf_w _ c | Wrap c _ | WithMessage c _ =>
      errors_Is_ErrNotExist c
  | _ => false
  end.

(** [errors.Is(err, terminal.InterruptErr)]. *)
Fixpoint errors_Is_InterruptErr (e : Err) : bool :=
  match e with
  | InterruptErr => true
  | PathError _ _ c | Errorf_w _ c | Wrap c _ | WithMessage c _ =>
      errors_Is_InterruptErr c
  | _ => false
  end.

(** ** Data *)

Module api.
(** [api.Organization]; the field [Type] is a Go string. *)
Record Organization : Type := {
  ID : string;
  Name : string;
  Slug : string;
  Type' : string;
}.

(** [*api.Client]: what the remote sees of it is the token it sends. *)
Record Client : Type := { token : string }.

Record App : Type := {
  AppName : string;
  AppOrganization : Organization;
}.
End api.

(** The options of [config.Config] the command package reads. *)
Record Config : Type := {
  APIBaseURL : string;
  LogGQLErrors : bool;
  AccessToken : string;
  Organization : string;
}.

(** [client.Client], built by [client.FromToken] from the access token. *)
Record Client : Type := { client_token : string }.

(** One configuration source (the environment through its name mapping,
    the fields of the file, the flags the invoker set): for every option the
    value the source sets, if any. *)
Record Layer : Type := {
  l_APIBaseURL : option string;
  l_LogGQLErrors : option bool;
  l_AccessToken : option string;
  l_Organization : option string;
}.

Definition no_layer : Layer :=
  {| l_APIBaseURL := None; l_LogGQLErrors := None;
     l_AccessToken := None; l_Organization := None |}.

(** What [ApplyFile] finds at a path. *)
Inductive FileProbe : Type :=
| NotExist
| Unusable (e : Err)
| Parsed (l : Layer).

Inductive result (A : Type) : Type :=
| ok (a : A)
| failed (e : Err).
Arguments ok {A} a.
Arguments failed {A} e.

(** ** The world *)

Inductive Event : Type :=
| Debugf (format : string) (args : list string)
| Debug (msg : string)
| Warnf (format : string) (args : list string)
| Printf (format : string) (args : list string)
| Println (line : string)
| Statusf (source format : string) (args : list string)  (* at level SINFO *)
| PromptForUpdate
| SetBaseURL (url : string)
| SetErrorLog (b : bool)
| GetOrganizations (filter : option string)
| GetApp (name : string)
| MoveApp (name orgID : string)
| AskSelect (message : string) (options : list string) (pageSize : nat)
| AskConfirm (message : string).

(** What the user does at a prompt. *)
Inductive Reply : Type :=
| Choose (index : nat)
| YesNo (yes : bool)
| Interrupt
| Broken (e : Err).

Record Host : Type := {
  os_Getwd : result string;
  os_UserHomeDir : result string;
  os_Environ : Layer;                (* the recognised variables, by option *)
  os_File : string → FileProbe;
  filepath_Join : string → string → string;   (* path joining of the platform *)
  config_defaults : Config;          (* the defaults built into the binary *)
  remote_orgs : api.Client → option string → result (list api.Organization);
  remote_app : api.Client → string → result api.App;
  remote_move : api.Client → string → string → result api.App;
}.

Record World : Type := {
  host : Host;
  events : list Event;
  replies : list Reply;
}.

(** ** The monad *)

Inductive outcome (A : Type) : Type :=
| Ret (a : A)
| Panic (why : string).
Arguments Ret {A} a.
Arguments Panic {A} why.

Definition M (A : Type) : Type := World → outcome A * World.

Global Instance M_ret : MRet M := λ A a w, (Ret a, w).

Global Instance M_bind : MBind M := λ A B k m w,
  match m w with
  | (Ret a, w') => k a w'
  | (Panic why, w') => (Panic why, w')
  end.

Definition panic {A} (why : string) : M A := λ w, (Panic why, w).

Definition emit (e : Event) : M unit := λ w,
  (Ret tt, {| host := host w; events := events w ++ [e]; replies := replies w |}).

Definition ask {A} (f : Host → A) : M A := λ w, (Ret (f (host w)), w).

Definition next_reply : M (option Reply) := λ w,
  match replies w with
  | [] => (Ret None, w)
  | r :: rs => (Ret (Some r), {| host := host w; events := events w; replies := rs |})
  end.

(** The world after some more events. *)
Definition logged (w : World) (es : list Event) : World :=
  {| host := host w; events := events w ++ es; replies := replies w |}.

(** The world after a prompt that took the next reply. *)
Definition prompted (w : World) (e : Event) : World :=
  {| host := host w; events := events w ++ [e]; replies := tail (replies w) |}.

(** ** Facts carried by a [context.Context]

    A context is nil or a bag of facts; the packages [state], [config],
    [client] and [flag] each store and read their own fact.  Reading a fact
    that was never stored, or deriving a context from nil, panics, as a
    failed Go type assertion and [context.WithValue(nil, ...)] do. *)

Record Facts : Type := {
  f_command : option string;          (* the cobra command, by its usage line *)
  f_flags : option Layer;             (* the flag set: the flags the invoker set *)
  f_workingDirectory : option string;
  f_userHomeDirectory : option string;
  f_configDirectory : option string;
  f_configFile : option string;
  f_config : option Config;
  f_client : option Client;
  f_org : option api.Organization;
}.

Abbreviation context := (option Facts).

Definition Background : Facts :=
  {| f_command := None; f_flags := None; f_workingDirectory := None;
     f_userHomeDirectory := None; f_configDirectory := None;
     f_configFile := None; f_config := None; f_client := None; f_org := None |}.

(** [ctx.Value(key).(T)] *)
Definition value {A} (what : string) (get : Facts → option A) (ctx : context) : M A :=
  match ctx with
  | None => panic "nil pointer dereference"
  | Some f =>
      match get f with
      | Some a => mret a
      | None => panic ("interface conversion: no " ++ what ++ " in context")
      end
  end.

(** [context.WithValue(ctx, key, v)] *)
Definition with_value (set : Facts → Facts) (ctx : context) : M context :=
  match ctx with
  | None => panic "cannot create context from nil parent"
  | Some f => mret (Some (set f))
  end.

Definition set_command (v : string) (f : Facts) : Facts :=
  {| f_command := Some v; f_flags := f_flags f;
     f_workingDirectory := f_workingDirectory f;
     f_userHomeDirectory := f_userHomeDirectory f;
     f_configDirectory := f_configDirectory f; f_configFile := f_configFile f;
     f_config := f_config f; f_client := f_client f; f_org := f_org f |}.

Definition set_flags (v : Layer) (f : Facts) : Facts :=
  {| f_command := f_command f; f_flags := Some v;
     f_workingDirectory := f_workingDirectory f;
     f_userHomeDirectory := f_userHomeDirectory f;
     f_configDirectory := f_configDirectory f; f_configFile := f_configFile f;
     f_config := f_config f; f_client := f_client f; f_org := f_org f |}.

Definition set_workingDirectory (v : string) (f : Facts) : Facts :=
  {| f_command := f_command f; f_flags := f_flags f;
     f_workingDirectory := Some v;
     f_userHomeDirectory := f_userHomeDirectory f;
     f_configDirectory := f_configDirectory f; f_configFile := f_configFile f;
     f_config := f_config f; f_client := f_client f; f_org := f_org f |}.

Definition set_userHomeDirectory (v : string) (f : Facts) : Facts :=
  {| f_command := f_command f; f_flags := f_flags f;
     f_workingDirectory := f_workingDirectory f;
     f_userHomeDirectory := Some v;
     f_configDirectory := f_configDirectory f; f_configFile := f_configFile f;
     f_config := f_config f; f_client := f_client f; f_org := f_org f |}.

Definition set_configDirectory (v : string) (f : Facts) : Facts :=
  {| f_command := f_command f; f_flags := f_flags f;
     f_workingDirectory := f_workingDirectory f;
     f_userHomeDirectory := f_userHomeDirectory f;
     f_configDirectory := Some v; f_configFile := f_configFile f;
     f_config := f_config f; f_client := f_client f; f_org := f_org f |}.

Definition set_configFile (v : string) (f : Facts) : Facts :=
  {| f_command := f_command f; f_flags := f_flags f;
     f_workingDirectory := f_workingDirectory f;
     f_userHomeDirectory := f_userHomeDirectory f;
     f_configDirectory := f_configDirectory f; f_configFile := Some v;
     f_config := f_config f; f_client := f_client f; f_org := f_org f |}.

Definition set_config (v : Config) (f : Facts) : Facts :=
  {| f_command := f_command f; f_flags := f_flags f;
     f_workingDirectory := f_workingDirectory f;
     f_userHomeDirectory := f_userHomeDirectory f;
     f_configDirectory := f_configDirectory f; f_configFile := f_configFile f;
     f_config := Some v; f_client := f_client f; f_org := f_org f |}.

Definition set_client (v : Client) (f : Facts) : Facts :=
  {| f_command := f_command f; f_flags := f_flags f;
     f_workingDirectory := f_workingDirectory f;
     f_userHomeDirectory := f_userHomeDirectory f;
     f_configDirectory := f_configDirectory f; f_configFile := f_configFile f;
     f_config := f_config f; f_client := Some v; f_org := f_org f |}.

(** The stored organization is a pointer; storing nil stores no organization. *)
Definition set_org (v : option api.Organization) (f : Facts) : Facts :=
  {| f_command := f_command f; f_flags := f_flags f;
     f_workingDirectory := f_workingDirectory f;
     f_userHomeDirectory := f_userHomeDirectory f;
     f_configDirectory := f_configDirectory f; f_configFile := f_configFile f;
     f_config := f_config f; f_client := f_client f; f_org := v |}.

Module state.
Definition WithWorkingDirectory (ctx : context) (wd : string) : M context :=
  with_value (set_workingDirectory wd) ctx.
Definition WithUserHomeDirectory (ctx : context) (dir : string) : M context :=
  with_value (set_userHomeDirectory dir) ctx.
Definition UserHomeDirectory : context → M string :=
  value "user home directory" f_userHomeDirectory.
Definition WithConfigDirectory (ctx : context) (dir : string) : M context :=
  with_value (set_configDirectory dir) ctx.
Definition ConfigDirectory : context → M string :=
  value "config directory" f_configDirectory.
Definition WithConfigFile (ctx : context) (file : string) : M context :=
  with_value (set_configFile file) ctx.
Definition ConfigFile : context → M string :=
  value "config file" f_configFile.
Definition WithOrg (ctx : context) (org : option api.Organization) : M context :=
  with_value (set_org org) ctx.
End state.

Module flag.
Definition NewContext (ctx : context) (fs : Layer) : M context :=
  with_value (set_flags fs) ctx.
Definition FromContext : context → M Layer := value "flag set" f_flags.
End flag.

Module logger.
(** The logger of the context; what it is asked to log is an event. *)
Definition Debugf (format : string) (args : list string) : M unit :=
  emit (Debugf format args).
Definition Debug (msg : string) : M unit := emit (Debug msg).
Definition Warnf (format : string) (args : list string) : M unit :=
  emit (Warnf format args).
End logger.

Module fmt.
Definition Printf (format : string) (args : list string) : M unit :=
  emit (Printf format args).
Definition Println (line : string) : M unit := emit (Println line).
End fmt.

(** ** The Go library

    [sort.Slice] is taken by its contract: it permutes the slice and leaves
    it ordered by [less]; the library documents that it is not guaranteed to
    be stable.  The order is only promised for a [less] that is a strict
    weak ordering. *)

Record StrictWeak {A} (less : A → A → bool) : Prop := {
  sw_asym : ∀ a b, less a b = true → less b a = false;
  sw_negtrans : ∀ a b c, less a b = false → less b c = false → less a c = false;
}.

Class GoSort : Type :=
  sort_Slice : ∀ {A}, (A → A → bool) → list A → list A.

Class GoSortContract (S : GoSort) : Prop := {
  sort_Slice_perm : ∀ A (less : A → A → bool) (l : list A),
    sort_Slice less l ≡ₚ l;
  sort_Slice_sorted : ∀ A (less : A → A → bool) (l : list A),
    StrictWeak less →
    StronglySorted (λ a b, less b a = false) (sort_Slice less l);
}.

Module strings.
Definition lower (c : ascii) : ascii :=
  let n := nat_of_ascii c in
  if (65 <=? n)%nat && (n <=? 90)%nat then ascii_of_nat (n + 32) else c.

(** [strings.ToLower] on the ASCII letters; the code only lowers
    organization types. *)
Fixpoint ToLower (s : string) : string :=
  match s with
  | EmptyString => EmptyString
  | String c r => String (lower c) (ToLower r)
  end.
End strings.

(** Go's [s < t] on strings: bytewise lexicographic. *)
Definition string_lt (s t : string) : bool := String.ltb s t.

(** ** Packages of the repository the command package calls *)

(** Modelled from the spec: how the methods of [config.Config], which are
    missing from the sources, apply one source: the options the source sets
    overwrite, the others stay. *)
Definition overlay (l : Layer) (cfg : Config) : Config :=
  {| APIBaseURL := default (APIBaseURL cfg) (l_APIBaseURL l);
     LogGQLErrors := default (LogGQLErrors cfg) (l_LogGQLErrors l);
     AccessToken := default (AccessToken cfg) (l_AccessToken l);
     Organization := default (Organization cfg) (l_Organization l) |}.

(** The value of an option or of a setting: a string or a boolean. *)
Inductive setting : Type :=
| Str (s : string)
| Bool (b : bool).

(** The options by name, to speak of any one of them. *)
Inductive Opt : Type :=
| OptAPIBaseURL
| OptLogGQLErrors
| OptAccessToken
| OptOrganization.

Definition option_of (k : Opt) (cfg : Config) : setting :=
  match k with
  | OptAPIBaseURL => Str (APIBaseURL cfg)
  | OptLogGQLErrors => Bool (LogGQLErrors cfg)
  | OptAccessToken => Str (AccessToken cfg)
  | OptOrganization => Str (Organization cfg)
  end.

Definition set_by (k : Opt) (l : Layer) : option setting :=
  match k with
  | OptAPIBaseURL => Str <$> l_APIBaseURL l
  | OptLogGQLErrors => Bool <$> l_LogGQLErrors l
  | OptAccessToken => Str <$> l_AccessToken l
  | OptOrganization => Str <$> l_Organization l
  end.

Module config.
(** Modelled from the spec: [config.New] is missing from the sources;
    it starts from the built-in defaults. *)
Definition New : M Config := ask config_defaults.

(** Modelled from the spec: [Config.ApplyEnv] is missing from the
    sources; every recognised environment variable that is set overwrites
    its option. *)
Definition ApplyEnv (cfg : Config) : M Config :=
  env ← ask os_Environ; mret (overlay env cfg).

(** Modelled from the spec: [Config.ApplyFile] is missing from the
    sources; a file at the path is parsed and its fields applied, a missing
    file is reported as an error that is [fs.ErrNotExist], a file that
    cannot be parsed as an error that is not. *)
Definition ApplyFile (cfg : Config) (path : string) : M (Config * error) :=
  probe ← ask (λ h, os_File h path);
  mret match probe with
       | Parsed l => (overlay l cfg, None)
       | NotExist => (cfg, Some (PathError "open" path ErrNotExist))
       | Unusable e => (cfg, Some e)
       end.

(** Modelled from the spec: [Config.ApplyFlags] is missing from the
    sources; a flag the invoker set overwrites, an unset flag never does. *)
Definition ApplyFlags (cfg : Config) (fs : Layer) : Config := overlay fs cfg.

Definition NewContext (ctx : context) (cfg : Config) : M context :=
  with_value (set_config cfg) ctx.
Definition FromContext : context → M Config := value "config" f_config.
End config.

(** The API client made from the token of a client. *)
Definition api_of (c : Client) : api.Client := {| api.token := client_token c |}.

Module client.
Definition FromToken (token : string) : Client := {| client_token := token |}.

(** Modelled from the spec: [Client.Authenticated] is missing from the
    sources; the session is the presence of an access token. *)
Definition Authenticated (c : Client) : bool :=
  negb (String.eqb (client_token c) "").

(** [Client.API]: the API client, nil without a token. *)
Definition API (c : Client) : option api.Client :=
  if Authenticated c then Some (api_of c) else None.

Definition NewContext (ctx : context) (c : Client) : M context :=
  with_value (set_client c) ctx.
Definition FromContext : context → M Client := value "client" f_client.
End client.

(** Calls on a [*api.Client]; a nil receiver panics. *)
Definition remote {A} (c : option api.Client) (call : Event)
    (answer : Host → api.Client → A) : M A :=
  match c with
  | None => panic "nil pointer dereference"
  | Some c => emit call;; ask (λ h, answer h c)
  end.

Definition api_GetOrganizations (c : option api.Client) (filter : option string)
    : M (list api.Organization * error) :=
  r ← remote c (GetOrganizations filter) (λ h c, remote_orgs h c filter);
  mret match r with ok orgs => (orgs, None) | failed e => ([], Some e) end.

Definition api_GetApp (c : option api.Client) (name : string)
    : M (option api.App * error) :=
  r ← remote c (GetApp name) (λ h c, remote_app h c name);
  mret match r with ok app => (Some app, None) | failed e => (None, Some e) end.

Definition api_MoveApp (c : option api.Client) (name orgID : string)
    : M (option api.App * error) :=
  r ← remote c (MoveApp name orgID) (λ h c, remote_move h c name orgID);
  mret match r with ok app => (Some app, None) | failed e => (None, Some e) end.

Module survey.
(** The index [Select] reports for the value picked: it goes through the
    options and keeps the last place the value is found at; before any is
    found there is none ([idx = -1]). *)
Fixpoint hunt (i : nat) (options : list string) (val : string)
    (idx : option nat) : option nat :=
  match options with
  | [] => idx
  | optionValue :: rest =>
      hunt (S i) rest val (if String.eqb optionValue val then Some i else idx)
  end.

(** What [Select] reports when the user picks the entry at place [i]: the
    last place of the options that shows the label picked.  A pick beyond
    the options, which no user can make, is reported as it is. *)
Definition reported (options : list string) (i : nat) : nat :=
  default i (options !! i ≫= λ val, hunt 0 options val None).

(** [survey.AskOne(&survey.Select{...}, &selected)]: the new value of
    [selected] and the error.  Without options the prompt fails at once,
    before anything is shown.  Otherwise it blocks for the next reply of
    the user; a closed input is [io.EOF], a reply of the wrong kind a
    failure of the prompt. *)
Definition AskOne_Select (message : string) (options : list string)
    (pageSize : nat) (selected : nat) : M (nat * error) :=
  match options with
  | [] => mret (selected, Some (errorString "please provide options to select from"))
  | _ :: _ =>
      emit (AskSelect message options pageSize);;
      r ← next_reply;
      mret match r with
           | Some (Choose i) => (reported options i, None)
           | Some Interrupt => (selected, Some InterruptErr)
           | Some (Broken e) => (selected, Some e)
           | Some (YesNo _) => (selected, Some (errorString "unexpected answer"))
           | None => (selected, Some EOF)
           end
  end.

(** [survey.AskOne(&survey.Confirm{...}, &confirm)] *)
Definition AskOne_Confirm (message : string) (confirm : bool) : M (bool * error) :=
  emit (AskConfirm message);;
  r ← next_reply;
  mret match r with
       | Some (YesNo b) => (b, None)
       | Some Interrupt => (confirm, Some InterruptErr)
       | Some (Broken e) => (confirm, Some e)
       | Some (Choose _) => (confirm, Some (errorString "unexpected answer"))
       | None => (confirm, Some EOF)
       end.
End survey.

Module update.
(** [update.PromptFor]: the advisory about a newer release. *)
Definition PromptFor (ctx : context) : M unit := emit PromptForUpdate.
End update.

(** [s[i]] on a slice: out of range panics. *)
Definition index {A} (l : list A) (i : nat) : M A :=
  match l !! i with
  | Some a => mret a
  | None => panic "index out of range"
  end.

(** ** Package [command] *)

(** A [*cobra.Command] as far as [newRunE] looks at it. *)
Record Command : Type := {
  Use : string;
  cmd_Context : context;
  cmd_Flags : Layer;
}.

Definition Preparer : Type := context → M (context * error).
Definition Runner : Type := context → M error.

Definition is_nil {A} (x : option A) : bool :=
  match x with None => true | Some _ => false end.

Module command.

(** [command.NewContext] (in a file of the package that is not at hand)
    stores the command. *)
Definition NewContext (ctx : context) (cmd : Command) : M context :=
  with_value (set_command (Use cmd)) ctx.

Fixpoint prepare (parent : context) (preparers : list Preparer)
    : M (context * error) :=
  match preparers with
  | [] => mret (parent, None)
  | p :: rest =>
      '(ctx, err) ← p parent;
      if is_nil err then prepare ctx rest else mret (ctx, err)
  end.

Definition promptToUpdate : Preparer := λ ctx,
  update.PromptFor ctx;;
  mret (ctx, None).

Definition determineWorkingDir : Preparer := λ ctx,
  r ← ask os_Getwd;
  match r with
  | failed err =>
      mret (None, Some (Errorf_w "error determining working directory: %w" err))
  | ok wd =>
      logger.Debugf "determined working directory: %q" [wd];;
      ctx ← state.WithWorkingDirectory ctx wd;
      mret (ctx, None)
  end.

Definition determineUserHomeDir : Preparer := λ ctx,
  r ← ask os_UserHomeDir;
  match r with
  | failed err =>
      mret (None, Some (Errorf_w "error determining user home directory: %w" err))
  | ok wd =>
      logger.Debugf "determined user home directory: %q" [wd];;
      ctx ← state.WithUserHomeDirectory ctx wd;
      mret (ctx, None)
  end.

Definition determineConfigDir : Preparer := λ ctx,
  home ← state.UserHomeDirectory ctx;
  dir ← ask (λ h, filepath_Join h home ".fly");
  logger.Debugf "determined config directory: %q" [dir];;
  ctx ← state.WithConfigDirectory ctx dir;
  mret (ctx, None).

Definition determineConfigFile : Preparer := λ ctx,
  cdir ← state.ConfigDirectory ctx;
  dir ← ask (λ h, filepath_Join h cdir "config.yml");
  logger.Debugf "determined config file: %q" [dir];;
  ctx ← state.WithConfigFile ctx dir;
  mret (ctx, None).

Definition loadConfig : Preparer := λ ctx,
  cfg ← config.New;
  (* first apply the environment *)
  cfg ← config.ApplyEnv cfg;
  (* then the file (if any) *)
  path ← state.ConfigFile ctx;
  '(cfg, err) ← config.ApplyFile cfg path;
  let and_lastly : M (context * error) :=
    (* and lastly apply command line flags *)
    fs ← flag.FromContext ctx;
    let cfg := config.ApplyFlags cfg fs in
    logger.Debug "config initialized.";;
    ctx ← config.NewContext ctx cfg;
    mret (ctx, None) in
  match err with
  | None => and_lastly
  | Some e =>
      if errors_Is_ErrNotExist e
      then logger.Warnf "no config file found at %s" [path];; and_lastly
      else mret (None, Some e)
  end.

Definition initClient : Preparer := λ ctx,
  cfg ← config.FromContext ctx;
  emit (SetBaseURL (APIBaseURL cfg));;
  emit (SetErrorLog (LogGQLErrors cfg));;
  let c := client.FromToken (AccessToken cfg) in
  logger.Debug "client initialized.";;
  ctx ← client.NewContext ctx c;
  mret (ctx, None).

Definition commonPreparers : list Preparer :=
  [ determineWorkingDir;
    determineUserHomeDir;
    determineConfigDir;
    determineConfigFile;
    loadConfig;
    initClient;
    promptToUpdate ].

(** [newRunE]: no function for a command without a body. *)
Definition newRunE (fn : option Runner) (preparers : list Preparer)
    : option (Command → list string → M error) :=
  match fn with
  | None => None
  | Some fn => Some (λ cmd _,
      let ctx := cmd_Context cmd in
      ctx ← NewContext ctx cmd;
      ctx ← flag.NewContext ctx (cmd_Flags cmd);
      (* run the common preparers *)
      '(ctx, err) ← prepare ctx commonPreparers;
      if negb (is_nil err) then mret err else
      (* run the preparers specific to the command *)
      '(ctx, err) ← prepare ctx preparers;
      if is_nil err
      then (* and run the command *) fn ctx
      else mret err)
  end.

(** [RequireSession] is a Preparer which makes sure a session exists. *)
Definition RequireSession : Preparer := λ ctx,
  c ← client.FromContext ctx;
  if negb (client.Authenticated c)
  then mret (None, Some ErrNoAuthToken)
  else mret (ctx, None).

Definition label (org : api.Organization) : string :=
  api.Name org ++ " (" ++ api.Slug org ++ ")".

Definition selectOrg (orgs : list api.Organization)
    : M (option api.Organization * error) :=
  let options := map label orgs in
  '(selectedOrg, err) ← survey.AskOne_Select "Select organization:" options 15 0;
  if negb (is_nil err) then mret (None, err) else
  org ← index orgs selectedOrg;
  mret (Some org, None).

Definition by_type (a b : api.Organization) : bool :=
  string_lt (api.Type' a) (api.Type' b).

(** [len(orgs) == 1 && orgs[0].Type == "PERSONAL"] *)
Definition sole_personal (orgs : list api.Organization) : bool :=
  (length orgs =? 1)%nat &&
  match orgs !! 0%nat with
  | Some org => String.eqb (api.Type' org) "PERSONAL"
  | None => false
  end.

Section sorting.
Context `{GoSort}.

(** [RequireOrg] is a Preparer which makes sure the user has selected an
    organization.  It embeds [RequireSession]. *)
Definition RequireOrg : Preparer := λ ctx,
  '(ctx, err) ← RequireSession ctx;
  if negb (is_nil err) then mret (None, err) else
  c ← client.FromContext ctx;
  let client := client.API c in
  '(orgs, err) ← api_GetOrganizations client None;
  if negb (is_nil err) then mret (None, err) else
  let orgs := sort_Slice by_type orgs in
  cfg ← config.FromContext ctx;
  let slug := Organization cfg in
  if String.eqb slug "" && sole_personal orgs then
    org ← index orgs 0;
    logger.Warnf "Automatically selected %s organization: %s\n"
      [strings.ToLower (api.Type' org); api.Name org];;
    ctx ← state.WithOrg ctx (Some org);
    mret (ctx, None)
  else if negb (String.eqb slug "") then
    match List.find (λ org, String.eqb slug (api.Slug org)) orgs with
    | Some org =>
        ctx ← state.WithOrg ctx (Some org);
        mret (ctx, None)
    | None => mret (None, Some (Errorf_q "Organization %q not found" slug))
    end
  else
    '(org, err) ← selectOrg orgs;
    if negb (is_nil err) then mret (None, err) else
    ctx ← state.WithOrg ctx org;
    mret (ctx, None).

(** The selector of the legacy commands. *)
Definition selectOrganization (client : option api.Client) (slug : string)
    (typeFilter : option string) : M (option api.Organization * error) :=
  '(orgs, err) ← api_GetOrganizations client typeFilter;
  if negb (is_nil err) then mret (None, err) else
  if sole_personal orgs then
    org ← index orgs 0;
    fmt.Printf "Automatically selected %s organization: %s\n"
      [strings.ToLower (api.Type' org); api.Name org];;
    mret (Some org, None)
  else
    let orgs := sort_Slice by_type orgs in
    let options := map label orgs in
    '(selectedOrg, err) ← survey.AskOne_Select "Select organization:" options 15 0;
    if negb (is_nil err) then mret (None, err) else
    org ← index orgs selectedOrg;
    mret (Some org, None).
End sorting.
End command.

(** ** Package [cmd]: the legacy commands *)

(** [*cmdctx.CmdContext] as far as [runMove] looks at it. *)
Record CmdContext : Type := {
  Args : list string;
  Config_ : gmap string setting;
  Client_ : Client;
}.

Definition GetString (cfg : gmap string setting) (key : string) : string :=
  match cfg !! key with
  | Some (Str s) => s
  | _ => ""
  end.

Definition GetBool (cfg : gmap string setting) (key : string) : bool :=
  match cfg !! key with
  | Some (Bool b) => b
  | _ => false
  end.


(** [p.f] through a pointer: nil panics. *)
Definition deref {A} (p : option A) : M A :=
  match p with
  | Some a => mret a
  | None => panic "nil pointer dereference"
  end.

Module cmd.

(** Modelled from the spec: [isInterrupt] is missing from the sources; a
    cancelled prompt surfaces as a distinguishable error, the interrupt
    error of the prompt library. *)
Definition isInterrupt (err : error) : bool :=
  match err with
  | Some e => errors_Is_InterruptErr e
  | None => false
  end.

Definition restart_warning : string :=
  "Moving an app between organizations requires a complete shutdown and restart. This will result in some app downtime.
If the app relies on other services within the current organization, it may not come back up in a healthy manner.
Please confirm you wish to restart this app now?".

Section sorting.
Context `{GoSort}.

Definition runMove (commandContext : CmdContext) : M error :=
  appName ← index (Args commandContext) 0;
  '(app, err) ← api_GetApp (client.API (Client_ commandContext)) appName;
  match err with
  | Some e => mret (Some (Wrap e "Error fetching app"))
  | None =>
  app ← deref app;
  let from := api.Slug (api.AppOrganization app) in
  emit (Statusf "move" "App '%s' is currently in organization '%s'\n"
          [api.AppName app; from]);;
  let targetOrgSlug := GetString (Config_ commandContext) "org" in
  '(org, err) ← command.selectOrganization
                  (client.API (Client_ commandContext)) targetOrgSlug None;
  if isInterrupt err then mret None
  else if negb (is_nil err) || is_nil org then
    mret (Some (Errorf_s "Error setting organization: %s" err))
  else
  org ← deref org;
  let move : M error :=
    '(_, err) ← api_MoveApp (client.API (Client_ commandContext))
                  appName (api.ID org);
    match err with
    | Some e => mret (Some (WithMessage e "Failed to move app"))
    | None =>
        fmt.Printf "Successfully moved %s to %s\n" [appName; api.Slug org];;
        mret None
    end in
  if negb (GetBool (Config_ commandContext) "yes") then
    fmt.Println restart_warning;;
    '(confirm, err) ← survey.AskOne_Confirm
        ("Move " ++ appName ++ " from " ++ from ++ " to " ++ api.Slug org ++ "?")
        false;
    if negb (is_nil err) then mret err
    else if negb confirm then mret None
    else move
  else move
  end.
End sorting.
End cmd.

(** ** [sort.Slice] on a short slice

    The Go releases of the time of this code (up to 1.18) end
    [quickSort_func] on a range of at most 12 elements with one shell sort
    pass of gap 6 followed by insertion sort.  [gosort.Slice] runs these
    two passes, on a slice of any length; it is one implementation within
    the contract [GoSort]. *)

Module gosort.
Section passes.
Context {A : Type} (less : A → A → bool).

(** [data.Less(i, j)] and [data.Swap(i, j)] on the slice [l]. *)
Definition Less (l : list A) (i j : nat) : bool :=
  match l !! i, l !! j with
  | Some x, Some y => less x y
  | _, _ => false
  end.

Definition Swap (l : list A) (i j : nat) : list A :=
  match l !! i, l !! j with
  | Some x, Some y => <[j:=x]> (<[i:=y]> l)
  | _, _ => l
  end.

(** [for j := i; j > a && data.Less(j, j-1); j-- { data.Swap(j, j-1) }] *)
Fixpoint sink (l : list A) (a j : nat) : list A :=
  match j with
  | O => l
  | S j' =>
      if (a <? j)%nat && Less l j j' then sink (Swap l j j') a j' else l
  end.

(** [for i := a + 1; i < b; i++ { ... }] *)
Definition insertionSort_func (l : list A) (a b : nat) : list A :=
  fold_left (λ l i, sink l a i) (seq (a + 1) (b - (a + 1))) l.

(** [for i := a + 6; i < b; i++ { if data.Less(i, i-6) { data.Swap(i, i-6) } }] *)
Definition shellPass (l : list A) (a b : nat) : list A :=
  fold_left (λ l i, if Less l i (i - 6) then Swap l i (i - 6) else l)
            (seq (a + 6) (b - (a + 6))) l.

(** The tail of [quickSort_func]: [if b-a > 1 { ... }]. *)
Definition quickSort_tail (l : list A) (a b : nat) : list A :=
  if (1 <? b - a)%nat then insertionSort_func (shellPass l a b) a b else l.

Definition Slice (l : list A) : list A := quickSort_tail l 0 (length l).

(** Insertion into a sorted prefix, seen from its end: what [sink]
    computes, on the reversed prefix. *)
Fixpoint ins (x : A) (rpre : list A) : list A :=
  match rpre with
  | [] => [x]
  | y :: r => if less x y then y :: ins x r else x :: y :: r
  end.
End passes.
End gosort.

Definition go_small : GoSort := @gosort.Slice.

(** ** Orders of the organizations *)

(** In ascending order of the type: no entry is below an earlier one. *)
Definition sorted_by_type (l : list api.Organization) : Prop :=
  StronglySorted (λ a b, command.by_type b a = false) l.

(** The entries of every one type are in the order of the fetch. *)
Definition keeps_fetch_order (fetched sorted : list api.Organization) : Prop :=
  ∀ t : string,
    filter (λ o, api.Type' o = t) sorted = filter (λ o, api.Type' o = t) fetched.

(** ** Sample data *)

Module sample.
Definition org (id name slug type : string) : api.Organization :=
  {| api.ID := id; api.Name := name; api.Slug := slug; api.Type' := type |}.

Definition personal : api.Organization := org "1" "Ada" "personal" "PERSONAL".
Definition acme : api.Organization := org "2" "Acme" "acme" "SHARED".
Definition other : api.Organization := org "3" "Other" "other" "SHARED".
Definition s (n : string) : api.Organization := org n n n "SHARED".

(** Six shared organizations followed by the personal one. *)
Definition seven : list api.Organization :=
  [s "a"; s "b"; s "c"; s "d"; s "e"; s "f"; personal].

Definition defaults : Config :=
  {| APIBaseURL := "https://api.fly.io"; LogGQLErrors := false;
     AccessToken := ""; Organization := "" |}.

(** A machine: what the environment sets, what is at the config path,
    what the remote answers when asked for the organizations. *)
Definition machine (env : Layer) (file : FileProbe)
    (orgs : result (list api.Organization)) : Host :=
  {| os_Getwd := ok "/work";
     os_UserHomeDir := ok "/home/ada";
     os_Environ := env;
     os_File := λ _, file;
     filepath_Join := λ a b, a ++ "/" ++ b;
     config_defaults := defaults;
     remote_orgs := λ _ _, orgs;
     remote_app := λ _ name, ok {| api.AppName := name; api.AppOrganization := acme |};
     remote_move := λ _ name _, ok {| api.AppName := name; api.AppOrganization := other |} |}.

Definition token (t : string) : Layer :=
  {| l_APIBaseURL := None; l_LogGQLErrors := None;
     l_AccessToken := Some t; l_Organization := None |}.

Definition start (h : Host) (rs : list Reply) : World :=
  {| host := h; events := []; replies := rs |}.

(** Preparers and a body that leave their name in the trace. *)
Definition passing (name : string) : Preparer := λ ctx,
  logger.Debug name;; mret (ctx, None).
Definition failing (name : string) (e : Err) : Preparer := λ ctx,
  logger.Debug name;; mret (None, Some e).
Definition body : Runner := λ ctx, fmt.Println "body";; mret None.


(** A context with a session and the given slug override. *)
Definition ready (slug : string) : Facts :=
  set_config {| APIBaseURL := "https://api.fly.io"; LogGQLErrors := false;
                AccessToken := "tok"; Organization := slug |}
    (set_client (client.FromToken "tok") Background).

Definition move_cmd : Command :=
  {| Use := "move"; cmd_Context := Some Background; cmd_Flags := no_layer |}.
End sample.

(** ** Package [cmd], file [launch.go]: whether to deploy the app found *)

Module launch.

(** [api.AllocationStatus] and [api.AppStatus] as far as they are read. *)
Record Allocation : Type := { Healthy : bool }.

Record AppStatus : Type := {
  Deployed : bool;
  Allocations : list Allocation;
}.

(** What [shouldDeployExistingApp] uses and the sources do not hold: the
    answer of the remote to [GetAppStatus], the test [api.IsNotFoundError]
    and the message [err.Error()] of an error. *)
Class Remote : Type := {
  remote_status : api.Client → string → bool → result AppStatus;
  IsNotFoundError : Err → bool;
  Error : Err → string;
}.

Section remote.
Context `{Remote}.

(** [client.GetAppStatus(appName, showCompleted)]; a nil receiver panics. *)
Definition api_GetAppStatus (c : option api.Client) (appName : string)
    (showCompleted : bool) : M (option AppStatus * error) :=
  match c with
  | None => panic "nil pointer dereference"
  | Some c =>
      mret match remote_status c appName showCompleted with
           | ok status => (Some status, None)
           | failed e => (None, Some e)
           end
  end.

(** [for _, a := range allocs { if a.Healthy { return false, nil } }
    return true, nil] *)
Fixpoint none_healthy (allocs : list Allocation) : bool :=
  match allocs with
  | [] => true
  | a :: rest => if Healthy a then false else none_healthy rest
  end.

Definition shouldDeployExistingApp (cc : CmdContext) (appName : string)
    : M (bool * error) :=
  '(status, err) ← api_GetAppStatus (client.API (Client_ cc)) appName false;
  match err with
  | Some e =>
      if IsNotFoundError e || String.eqb (Error e) "Could not resolve App"
      then mret (false, None)
      else mret (false, Some e)
  | None =>
      status ← deref status;
      if negb (Deployed status) then mret (true, None)
      else mret (none_healthy (Allocations status), None)
  end.
End remote.
End launch.

(** ** More sample data *)

Module scenario.
(** A machine whose remote fails to list the organizations. *)
Definition offline : Host :=
  sample.machine no_layer NotExist (failed (errorString "connection refused")).

(** A machine with two shared organizations; moving an app fails or not. *)
Definition two (move : result api.App) : Host :=
  {| os_Getwd := ok "/work";
     os_UserHomeDir := ok "/home/ada";
     os_Environ := sample.token "tok";
     os_File := λ _, NotExist;
     filepath_Join := λ a b, a ++ "/" ++ b;
     config_defaults := sample.defaults;
     remote_orgs := λ _ _, ok [sample.acme; sample.other];
     remote_app := λ _ name,
       if String.eqb name "myapp"
       then ok {| api.AppName := name; api.AppOrganization := sample.acme |}
       else failed (errorString "Could not resolve App");
     remote_move := λ _ _ _, move |}.



Definition moved : result api.App :=
  ok {| api.AppName := "myapp"; api.AppOrganization := sample.other |}.

(** The legacy move command with the yes flag. *)
Definition moving_yes (app : string) (yes : bool) : CmdContext :=
  {| Args := [app];
     Config_ := {[ "yes" := Bool yes ]};
     Client_ := client.FromToken "tok" |}.

(** A remote for [shouldDeployExistingApp]: the status of every app. *)
Definition statuses (answer : result launch.AppStatus) : launch.Remote :=
  {| launch.remote_status := λ _ _ _, answer;
     launch.IsNotFoundError := λ e,
       match e with errorString "Not Found" => true | _ => false end;
     launch.Error := λ e,
       match e with errorString msg => msg | _ => "" end |}.

Definition alloc (healthy : bool) : launch.Allocation :=
  {| launch.Healthy := healthy |}.
End scenario.

(** * Properties *)

Local Open Scope list_scope.

(** ** Running computations *)

(** The selectors are run by their lemmas, not by simplification. *)
Arguments command.selectOrg : simpl never.
Arguments command.selectOrganization : simpl never.

Lemma bind_Ret {A B} (m : M A) (k : A → M B) (w w' : World) (a : A) :
  m w = (Ret a, w') → (m ≫= k) w = k a w'.
Proof. intros E. unfold mbind, M_bind. now rewrite E. Qed.

(** Unfolds the monad and the packages down to the world. *)
Ltac run :=
  repeat progress
    (unfold mbind, M_bind, mret, M_ret, panic, emit, ask, next_reply,
       value, with_value, index, deref, remote in *;
     cbn in *).

(** ** The preparer chain *)

(** A chain in two halves: the second half runs on what the first half
    left, if the first half got through. *)
Lemma prepare_app (l1 l2 : list Preparer) (parent : context) (w : World) :
  command.prepare parent (l1 ++ l2) w =
  match command.prepare parent l1 w with
  | (Ret (ctx, None), w1) => command.prepare ctx l2 w1
  | r => r
  end.
Proof.
  revert parent w. induction l1 as [|p l1 IH]; intros parent w; [reflexivity|].
  cbn [app command.prepare]. unfold mbind, M_bind.
  destruct (p parent w) as [[[ctx [e|]]|why] w1]; cbn; auto.
Qed.

(** The failing preparer ends the chain: what it returned and the world it
    left are what the chain returns and leaves. *)
Lemma prepare_stops (p : Preparer) (after : list Preparer) (ctx ctx' : context)
    (e : Err) (w w' : World) :
  p ctx w = (Ret (ctx', Some e), w') →
  command.prepare ctx (p :: after) w = (Ret (ctx', Some e), w').
Proof. intros E. cbn [command.prepare]. now rewrite (bind_Ret _ _ _ _ _ E). Qed.

Lemma prepare_fails_at (before after : list Preparer) (p : Preparer)
    (parent ctx ctx' : context) (e : Err) (w w1 w2 : World) :
  command.prepare parent before w = (Ret (ctx, None), w1) →
  p ctx w1 = (Ret (ctx', Some e), w2) →
  command.prepare parent (before ++ p :: after) w = (Ret (ctx', Some e), w2).
Proof.
  intros Hb Hp. rewrite prepare_app, Hb. now apply prepare_stops.
Qed.

(** The dispatcher runs one chain: the common preparers followed by the
    preparers of the command, and the body after them. *)
Lemma newRunE_chain (fn : Runner) (preparers : list Preparer) (cmd : Command)
    (args : list string) (f : Facts) (w : World) :
  cmd_Context cmd = Some f →
  ∃ run, command.newRunE (Some fn) preparers = Some run ∧
    run cmd args w =
    match command.prepare
            (Some (set_flags (cmd_Flags cmd) (set_command (Use cmd) f)))
            (command.commonPreparers ++ preparers) w with
    | (Ret (ctx, None), w') => fn ctx w'
    | (Ret (_, Some e), w') => (Ret (Some e), w')
    | (Panic why, w') => (Panic why, w')
    end.
Proof.
  intros Hc. eexists. split; [reflexivity|].
  rewrite prepare_app. unfold command.NewContext, flag.NewContext.
  rewrite Hc. unfold with_value, mbind, M_bind, mret, M_ret.
  cbn [negb is_nil].
  destruct (command.prepare _ command.commonPreparers w)
    as [[[ctx [e|]]|why] w1]; cbn; auto.
  destruct (command.prepare ctx preparers w1) as [[[ctx' [e|]]|why] w2]; cbn; auto.
Qed.

(** C1.  The preparer chain is short-circuiting.  When the preparers before
    [p] get through and [p] returns the error [e], the chain returns what
    [p] returned, error [e] unchanged, and leaves the world as [p] left it,
    whatever the later preparers are: none of them ran, since a run would
    show in the outcome or in the world.  For the dispatcher, when [p] is
    anywhere in the common preparers followed by the preparers of the
    command, the function built by [newRunE] returns [e] and leaves the
    world of [p]: the later preparers and the body did not run. *)
Theorem prepare_short_circuit (before after : list Preparer) (p : Preparer)
    (parent ctx ctx' : context) (e : Err) (w w1 w2 : World) :
  command.prepare parent before w = (Ret (ctx, None), w1) →
  p ctx w1 = (Ret (ctx', Some e), w2) →
  command.prepare parent (before ++ p :: after) w = (Ret (ctx', Some e), w2) ∧
  ∀ (fn : Runner) (preparers : list Preparer) (cmd : Command)
    (args : list string) (f : Facts),
    cmd_Context cmd = Some f →
    parent = Some (set_flags (cmd_Flags cmd) (set_command (Use cmd) f)) →
    (command.commonPreparers ++ preparers = before ++ p :: after)%list →
    ∃ run, command.newRunE (Some fn) preparers = Some run ∧
           run cmd args w = (Ret (Some e), w2).
Proof.
  intros Hb Hp.
  pose proof (prepare_fails_at before after p _ _ _ _ _ _ _ Hb Hp) as Hchain.
  split; [exact Hchain|].
  intros fn preparers cmd args f Hc -> Hsplit.
  destruct (newRunE_chain fn preparers cmd args f w Hc) as (run & Hrun & Heq).
  exists run. split; [exact Hrun|].
  rewrite Heq, Hsplit, Hchain. reflexivity.
Qed.

(** The chain [[p1; p2; p3]] of a command, after the common preparers on a
    machine without a config file: [p2] fails, the trace ends with [p2],
    neither [p3] nor the body left a trace. *)
Lemma prepare_short_circuit_witness :
  ∃ run w2,
    command.newRunE (Some sample.body)
      [sample.passing "p1"; sample.failing "p2" (errorString "boom");
       sample.passing "p3"] = Some run ∧
    run sample.move_cmd []
        (sample.start (sample.machine no_layer NotExist (ok [])) [])
      = (Ret (Some (errorString "boom")), w2) ∧
    drop 10 (events w2) = [Debug "p1"; Debug "p2"].
Proof.
  pose (w := sample.start (sample.machine no_layer NotExist (ok [])) []).
  pose (parent := Some (set_flags no_layer (set_command "move" Background))).
  pose (before := (command.commonPreparers ++ [sample.passing "p1"])%list).
  pose (r := command.prepare parent before w).
  pose (ctx := match r.1 with Ret (c, _) => c | Panic _ => None end).
  pose (p2 := sample.failing "p2" (errorString "boom")).
  assert (Hb : command.prepare parent before w = (Ret (ctx, None), r.2))
    by (vm_compute; reflexivity).
  assert (Hp : p2 ctx r.2 = (Ret (None, Some (errorString "boom")), (p2 ctx r.2).2))
    by (vm_compute; reflexivity).
  destruct (proj2 (prepare_short_circuit before [sample.passing "p3"] p2
                     parent ctx None (errorString "boom") w r.2 (p2 ctx r.2).2
                     Hb Hp)
              sample.body
              [sample.passing "p1"; p2; sample.passing "p3"]
              sample.move_cmd [] Background eq_refl eq_refl eq_refl)
    as (run & Hrun & Hres).
  exists run, (p2 ctx r.2).2.
  split; [exact Hrun | split; [exact Hres | vm_compute; reflexivity]].
Defined.

(** ** The order of Go strings *)

(** [s >= t] and [t >= u] give [s >= u]. *)
Lemma string_compare_ge_trans (s t u : string) :
  String.compare s t ≠ Lt → String.compare t u ≠ Lt → String.compare s u ≠ Lt.
Proof.
  revert t u. induction s as [|a s IH]; intros [|b t] [|c u]; cbn; try congruence.
  unfold Ascii.compare.
  destruct (N.compare_spec (N_of_ascii a) (N_of_ascii b)) as [Eab|Lab|Gab];
    destruct (N.compare_spec (N_of_ascii b) (N_of_ascii c)) as [Ebc|Lbc|Gbc];
    destruct (N.compare_spec (N_of_ascii a) (N_of_ascii c)) as [Eac|Lac|Gac];
    try congruence; try lia; eauto.
Qed.

Lemma by_type_StrictWeak : StrictWeak command.by_type.
Proof.
  split; unfold command.by_type, string_lt, String.ltb.
  - intros a b. rewrite (String.compare_antisym (api.Type' a)).
    now destruct (String.compare (api.Type' b) (api.Type' a)).
  - intros a b c Hab Hbc.
    pose proof (string_compare_ge_trans (api.Type' a) (api.Type' b) (api.Type' c)) as T.
    destruct (String.compare (api.Type' a) (api.Type' b));
      destruct (String.compare (api.Type' b) (api.Type' c));
      destruct (String.compare (api.Type' a) (api.Type' c));
      try congruence; exfalso; apply T; congruence.
Qed.

(** ** The two passes sort *)

Section gosort_facts.
Context {A : Type} (less : A → A → bool).

Lemma Swap_perm (l : list A) (i j : nat) : gosort.Swap l i j ≡ₚ l.
Proof.
  unfold gosort.Swap.
  destruct (l !! i) as [x|] eqn:Hi; [|reflexivity].
  destruct (l !! j) as [y|] eqn:Hj; [|reflexivity].
  now apply Permutation_insert_swap.
Qed.

Lemma sink_perm (l : list A) (a j : nat) : gosort.sink less l a j ≡ₚ l.
Proof.
  revert l. induction j as [|j IH]; intros l; [reflexivity|]. cbn [gosort.sink].
  destruct ((a <? S j)%nat && gosort.Less less l (S j) j); [|reflexivity].
  now rewrite IH, Swap_perm.
Qed.

Lemma fold_perm (step : list A → nat → list A) (idx : list nat) (l : list A) :
  (∀ l i, step l i ≡ₚ l) → fold_left step idx l ≡ₚ l.
Proof.
  intros Hstep. revert l. induction idx as [|i idx IH]; intros l; [reflexivity|].
  cbn. now rewrite IH, Hstep.
Qed.

Lemma Slice_perm (l : list A) : gosort.Slice less l ≡ₚ l.
Proof.
  unfold gosort.Slice, gosort.quickSort_tail.
  destruct (1 <? length l - 0)%nat; [|reflexivity].
  unfold gosort.insertionSort_func, gosort.shellPass.
  rewrite fold_perm by (intros; apply sink_perm).
  apply fold_perm. intros l' i.
  destruct (gosort.Less less l' i (i - 6)); [apply Swap_perm|reflexivity].
Qed.

(** One run of the inner loop from the end of a prefix is [ins] on the
    reversed prefix. *)
Lemma sink_ins (pre post : list A) (x : A) :
  gosort.sink less (pre ++ x :: post) 0 (length pre)
  = (rev (gosort.ins less x (rev pre)) ++ post)%list.
Proof.
  revert post. induction pre as [|y pre IH] using rev_ind; intros post;
    [reflexivity|].
  rewrite length_app, Nat.add_1_r, rev_app_distr. cbn [gosort.sink rev app gosort.ins].
  unfold gosort.Less, gosort.Swap.
  assert (((pre ++ [y]) ++ x :: post) !! S (length pre) = Some x) as ->.
  { apply list_lookup_middle. rewrite length_app. cbn. lia. }
  assert (((pre ++ [y]) ++ x :: post) !! length pre = Some y) as ->.
  { rewrite <- app_assoc. now apply list_lookup_middle. }
  cbn [andb Nat.ltb Nat.leb].
  destruct (less x y); cbn [rev].
  - rewrite <- !app_assoc. cbn [app].
    replace (S (length pre)) with (length pre + 1)%nat by lia.
    rewrite insert_app_r. cbn [list_insert].
    replace (length pre) with (length pre + 0)%nat at 1 by lia.
    rewrite insert_app_r. cbn. apply IH.
  - rewrite rev_involutive. now rewrite <- !app_assoc.
Qed.

Lemma ins_Forall (P : A → Prop) (x : A) (r : list A) :
  P x → Forall P r → Forall P (gosort.ins less x r).
Proof.
  intros Hx. induction 1 as [|y r Hy Hr IH]; cbn; [now repeat constructor|].
  destruct (less x y); repeat constructor; auto.
Qed.

Context (SW : StrictWeak less).

(** The prefix is kept in order from its end: nothing is below what
    comes after it in the reversed prefix. *)
Lemma ins_sorted (x : A) (r : list A) :
  StronglySorted (λ a b, less a b = false) r →
  StronglySorted (λ a b, less a b = false) (gosort.ins less x r).
Proof.
  induction 1 as [|y r Hr IH Hy]; cbn.
  - repeat constructor.
  - destruct (less x y) eqn:Hxy.
    + constructor; [exact IH|].
      apply ins_Forall; [now apply (sw_asym less SW)|exact Hy].
    + constructor; [now constructor|].
      constructor; [exact Hxy|].
      eapply Forall_impl; [exact Hy|]. intros z Hz. cbn in Hz.
      exact (sw_negtrans less SW _ _ _ Hxy Hz).
Qed.

Lemma snoc_sorted (R : A → A → Prop) (l : list A) (y : A) :
  StronglySorted R l → Forall (λ a, R a y) l → StronglySorted R (l ++ [y]).
Proof.
  induction 1 as [|a l Hl IH Ha]; intros Hy; cbn; [now repeat constructor|].
  inversion Hy; subst. constructor; [auto|].
  apply Forall_app. split; [exact Ha|]. now repeat constructor.
Qed.

Lemma rev_sorted (R : A → A → Prop) (r : list A) :
  StronglySorted R r → StronglySorted (flip R) (rev r).
Proof.
  induction 1 as [|y r Hr IH Hy]; cbn; [constructor|].
  apply snoc_sorted; [exact IH|]. now apply List.Forall_rev.
Qed.

Lemma length_ins (x : A) (r : list A) :
  length (gosort.ins less x r) = S (length r).
Proof.
  induction r as [|y r IH]; [reflexivity|]. cbn.
  destruct (less x y); cbn; congruence.
Qed.

(** The outer loop, from index [k] on, with the prefix before [k] in
    order. *)
Lemma insertion_from (n k : nat) (l : list A) :
  length l = (k + n)%nat →
  StronglySorted (λ a b, less b a = false) (take k l) →
  StronglySorted (λ a b, less b a = false)
    (fold_left (λ l i, gosort.sink less l 0 i) (seq k n) l).
Proof.
  revert k l. induction n as [|n IH]; intros k l Hlen Hpre; cbn [seq fold_left].
  - rewrite take_ge in Hpre by lia. exact Hpre.
  - destruct (lookup_lt_is_Some_2 l k) as [x Hx]; [lia|].
    pose proof (take_drop_middle l k x Hx) as Hl.
    assert (length (take k l) = k) as Hk by (rewrite length_take; lia).
    replace (gosort.sink less l 0 k)
      with (gosort.sink less (take k l ++ x :: drop (S k) l) 0 (length (take k l)))
      by now rewrite Hl, Hk.
    rewrite sink_ins.
    set (pre' := rev (gosort.ins less x (rev (take k l)))).
    assert (length pre' = S k) as Hk'.
    { unfold pre'. now rewrite length_rev, length_ins, length_rev, Hk. }
    apply IH.
    + rewrite length_app, Hk', length_drop. lia.
    + rewrite take_app_length' by (symmetry; exact Hk'). unfold pre'.
      apply (rev_sorted (λ a b, less a b = false)), ins_sorted.
      apply (rev_sorted (λ a b, less b a = false)), Hpre.
Qed.

Lemma insertionSort_sorted (l : list A) :
  StronglySorted (λ a b, less b a = false)
    (gosort.insertionSort_func less l 0 (length l)).
Proof.
  unfold gosort.insertionSort_func. destruct l as [|x l]; [constructor|].
  apply insertion_from; cbn; [lia|].
  rewrite take_0. now repeat constructor.
Qed.

Lemma Slice_sorted (l : list A) :
  StronglySorted (λ a b, less b a = false) (gosort.Slice less l).
Proof.
  unfold gosort.Slice, gosort.quickSort_tail.
  destruct (1 <? length l - 0)%nat eqn:Hn.
  - assert (length (gosort.shellPass less l 0 (length l)) = length l) as Hlen.
    { apply Permutation_length, fold_perm. intros l' i.
      destruct (gosort.Less less l' i (i - 6)); [apply Swap_perm|reflexivity]. }
    rewrite <- Hlen at 2. apply insertionSort_sorted.
  - apply Nat.ltb_ge in Hn.
    destruct l as [|x [|y l]]; cbn in Hn; try lia; now repeat constructor.
Qed.
End gosort_facts.

(** The two passes are within the contract of [sort.Slice]. *)
Lemma go_small_contract : GoSortContract go_small.
Proof.
  split.
  - intros A less l. apply Slice_perm.
  - intros A less l SW. now apply Slice_sorted.
Qed.

(** ** The session *)

Lemma RequireSession_run (f : Facts) (c : Client) (w : World) :
  f_client f = Some c →
  command.RequireSession (Some f) w =
  if client.Authenticated c
  then (Ret (Some f, None), w)
  else (Ret (None, Some ErrNoAuthToken), w).
Proof.
  intros Hc. unfold command.RequireSession, client.FromContext. run.
  rewrite Hc. run. now destruct (client.Authenticated c).
Qed.

(** C7.  With a client in the context, [RequireSession] fails with
    [ErrNoAuthToken] exactly when the client is not authenticated, any
    error it returns is that one, and an authenticated client gets its
    context back unchanged; the world is never touched.  Run twice in a
    chain it gives what one run gives. *)
Theorem RequireSession_spec (f : Facts) (c : Client) (w : World) :
  f_client f = Some c →
  (command.RequireSession (Some f) w = (Ret (None, Some ErrNoAuthToken), w)
   ↔ client.Authenticated c = false) ∧
  (∀ ctx e w', command.RequireSession (Some f) w = (Ret (ctx, Some e), w') →
               e = ErrNoAuthToken ∧ client.Authenticated c = false) ∧
  (client.Authenticated c = true →
   command.RequireSession (Some f) w = (Ret (Some f, None), w)) ∧
  command.prepare (Some f) [command.RequireSession; command.RequireSession] w
  = command.prepare (Some f) [command.RequireSession] w.
Proof.
  intros Hc. pose proof (RequireSession_run f c w Hc) as Hrun.
  split; [|split; [|split]].
  - rewrite Hrun. destruct (client.Authenticated c); split; congruence.
  - intros ctx e w' E. rewrite Hrun in E.
    destruct (client.Authenticated c); split; congruence.
  - intros E. now rewrite Hrun, E.
  - cbn [command.prepare]. unfold mbind, M_bind. rewrite Hrun.
    destruct (client.Authenticated c) eqn:E; cbn [is_nil]; [|reflexivity].
    rewrite Hrun. reflexivity.
Qed.

Lemma RequireSession_spec_witness :
  let anonymous := set_client (client.FromToken "") Background in
  let known := set_client (client.FromToken "tok") Background in
  let w := sample.start (sample.machine no_layer NotExist (ok [])) [] in
  command.RequireSession (Some anonymous) w = (Ret (None, Some ErrNoAuthToken), w) ∧
  command.RequireSession (Some known) w = (Ret (Some known, None), w) ∧
  command.prepare (Some known) [command.RequireSession; command.RequireSession] w
  = command.prepare (Some known) [command.RequireSession] w.
Proof.
  intros anonymous known w.
  pose proof (RequireSession_spec anonymous (client.FromToken "") w eq_refl)
    as (Hfail & _).
  pose proof (RequireSession_spec known (client.FromToken "tok") w eq_refl)
    as (_ & _ & Hpass & Hidem).
  split; [apply Hfail; reflexivity|].
  split; [apply Hpass; reflexivity|exact Hidem].
Defined.

(** C8.  [RequireOrg] asks for the session first: with a client that is
    not authenticated it returns what [RequireSession] returns, the error
    [ErrNoAuthToken], and leaves the world as it found it: no fetch of the
    organizations, no notice, no prompt. *)
Theorem RequireOrg_requires_session `{GoSort} (f : Facts) (c : Client) (w : World) :
  f_client f = Some c →
  client.Authenticated c = false →
  command.RequireOrg (Some f) w = (Ret (None, Some ErrNoAuthToken), w) ∧
  command.RequireOrg (Some f) w = command.RequireSession (Some f) w.
Proof.
  intros Hc Ha. pose proof (RequireSession_run f c w Hc) as Hrun.
  rewrite Ha in Hrun. rewrite Hrun.
  assert (command.RequireOrg (Some f) w = (Ret (None, Some ErrNoAuthToken), w))
    as E; [|now split].
  unfold command.RequireOrg. now rewrite (bind_Ret _ _ _ _ _ Hrun).
Qed.

Lemma RequireOrg_requires_session_witness :
  let anonymous := set_client (client.FromToken "") Background in
  let w := sample.start (sample.machine no_layer NotExist (ok [sample.personal])) [] in
  @command.RequireOrg go_small (Some anonymous) w
  = (Ret (None, Some ErrNoAuthToken), w).
Proof.
  intros anonymous w.
  exact (proj1 (@RequireOrg_requires_session go_small anonymous
                  (client.FromToken "") w eq_refl eq_refl)).
Defined.

(** ** The organization *)

Lemma sort_Slice_single `{GoSortContract} {A} (less : A → A → bool) (x : A) :
  sort_Slice less [x] = [x].
Proof. apply Permutation_singleton_r, sort_Slice_perm. Qed.

(** C4.  One organization, of type personal, and no slug override:
    [RequireOrg] stores that organization in the context and logs the
    notice that names it.  The trace gains the fetch and the notice and no
    prompt, and no reply of the user is consumed: the selector is not
    called. *)
Theorem RequireOrg_sole_personal `{GoSortContract} (f : Facts) (c : Client) (cfg : Config)
    (org : api.Organization) (w : World) :
  f_client f = Some c →
  client.Authenticated c = true →
  f_config f = Some cfg →
  Organization cfg = "" →
  remote_orgs (host w) (api_of c) None = ok [org] →
  api.Type' org = "PERSONAL" →
  command.RequireOrg (Some f) w =
  (Ret (Some (set_org (Some org) f), None),
   logged w [GetOrganizations None;
             Warnf "Automatically selected %s organization: %s\n"
                   ["personal"; api.Name org]]).
Proof.
  intros Hc Ha Hcfg Hslug Horgs Hty.
  pose proof (RequireSession_run f c w Hc) as Hrun. rewrite Ha in Hrun.
  unfold command.RequireOrg. rewrite (bind_Ret _ _ _ _ _ Hrun). cbn [is_nil negb].
  unfold client.FromContext, config.FromContext, api_GetOrganizations,
    client.API, state.WithOrg, logger.Warnf.
  run. rewrite Hc. run. rewrite Ha. run. rewrite Horgs. run.
  rewrite Hcfg. run. rewrite Hslug, sort_Slice_single. cbn. rewrite Hty. cbn.
  unfold logged. now rewrite <- app_assoc.
Qed.

Lemma RequireOrg_sole_personal_witness :
  let f := set_config sample.defaults
             (set_client (client.FromToken "tok") Background) in
  let w := sample.start (sample.machine no_layer NotExist (ok [sample.personal]))
             [Choose 0] in
  @command.RequireOrg go_small (Some f) w =
  (Ret (Some (set_org (Some sample.personal) f), None),
   {| host := host w;
      events := [GetOrganizations None;
                 Warnf "Automatically selected %s organization: %s\n"
                       ["personal"; "Ada"]];
      replies := [Choose 0] |}).
Proof.
  intros f w.
  exact (@RequireOrg_sole_personal go_small go_small_contract f (client.FromToken "tok")
           sample.defaults sample.personal w
           eq_refl eq_refl eq_refl eq_refl eq_refl eq_refl).
Defined.

(** Up to the decision table: the session holds, the fetch answers [orgs],
    and the slug override is read. *)
Ltac to_table Hc Ha Hcfg Horgs :=
  match type of Hc with
  | f_client ?f = Some ?c =>
      match goal with
      | |- context [command.RequireOrg (Some f) ?w] =>
          let Hrun := fresh "Hrun" in
          pose proof (RequireSession_run f c w Hc) as Hrun;
          rewrite Ha in Hrun;
          unfold command.RequireOrg;
          rewrite (bind_Ret _ _ _ _ _ Hrun); cbn [is_nil negb];
          unfold client.FromContext, config.FromContext, api_GetOrganizations,
            client.API, state.WithOrg, logger.Warnf;
          run; rewrite Hc; run; rewrite Ha; run; rewrite Horgs; run;
          rewrite Hcfg; run; clear Hrun
      end
  end.

(** The second row of the table: the first entry of the sorted list with
    the slug, or the error. *)
Lemma RequireOrg_slug_run `{GoSort} (f : Facts) (c : Client) (cfg : Config)
    (orgs : list api.Organization) (w : World) :
  f_client f = Some c →
  client.Authenticated c = true →
  f_config f = Some cfg →
  Organization cfg ≠ "" →
  remote_orgs (host w) (api_of c) None = ok orgs →
  command.RequireOrg (Some f) w =
  match List.find (λ o, String.eqb (Organization cfg) (api.Slug o))
                  (sort_Slice command.by_type orgs) with
  | Some org =>
      (Ret (Some (set_org (Some org) f), None), logged w [GetOrganizations None])
  | None =>
      (Ret (None, Some (Errorf_q "Organization %q not found" (Organization cfg))),
       logged w [GetOrganizations None])
  end.
Proof.
  intros Hc Ha Hcfg Hslug Horgs.
  assert (String.eqb (Organization cfg) "" = false) as Hne
    by now apply String.eqb_neq.
  to_table Hc Ha Hcfg Horgs. rewrite Hne. cbn.
  now destruct (List.find _ _).
Qed.

(** C2.  With a non-empty slug override, [RequireOrg] looks for the slug
    in the fetched organizations.  If one of them has exactly that slug, an
    organization of the fetched list with that slug is stored in the
    context, and it is that very one when no other entry has the slug; the
    number of organizations and their types play no part.  If none has the
    slug, the call fails with the error made from
    [Organization %q not found] and the requested slug.  In both cases the
    fetch is all the trace gains. *)
Theorem RequireOrg_slug_override `{GoSortContract} (f : Facts) (c : Client) (cfg : Config)
    (orgs : list api.Organization) (w : World) :
  f_client f = Some c →
  client.Authenticated c = true →
  f_config f = Some cfg →
  Organization cfg ≠ "" →
  remote_orgs (host w) (api_of c) None = ok orgs →
  (∀ org, org ∈ orgs → api.Slug org = Organization cfg →
     ∃ org', org' ∈ orgs ∧ api.Slug org' = Organization cfg ∧
       command.RequireOrg (Some f) w =
       (Ret (Some (set_org (Some org') f), None), logged w [GetOrganizations None]) ∧
       ((∀ o, o ∈ orgs → api.Slug o = Organization cfg → o = org) → org' = org)) ∧
  ((∀ org, org ∈ orgs → api.Slug org ≠ Organization cfg) →
     command.RequireOrg (Some f) w =
     (Ret (None, Some (Errorf_q "Organization %q not found" (Organization cfg))),
      logged w [GetOrganizations None])).
Proof.
  intros Hc Ha Hcfg Hslug Horgs.
  rewrite (RequireOrg_slug_run f c cfg orgs w Hc Ha Hcfg Hslug Horgs).
  set (sorted := sort_Slice command.by_type orgs).
  assert (∀ o, o ∈ sorted ↔ o ∈ orgs) as Hin.
  { intros o. unfold sorted. now rewrite sort_Slice_perm. }
  destruct (List.find (λ o, String.eqb (Organization cfg) (api.Slug o)) sorted)
    as [org'|] eqn:Hfind.
  - apply List.find_some in Hfind as [Hin' Heq'].
    apply String.eqb_eq in Heq'. apply list_elem_of_In, Hin in Hin'.
    split.
    + intros org Horg Heq. exists org'.
      split; [exact Hin'|]. split; [now symmetry|]. split; [reflexivity|].
      intros Huniq. apply Huniq; [exact Hin'|now symmetry].
    + intros Hnone. now destruct (Hnone org' Hin').
  - split; [|reflexivity].
    intros org Horg Heq. exfalso.
    assert ((Organization cfg =? api.Slug org)%string = false) as Hno.
    { apply (List.find_none _ _ Hfind org). now apply list_elem_of_In, Hin. }
    apply String.eqb_neq in Hno. congruence.
Qed.

Lemma RequireOrg_slug_override_witness :
  let ctx slug :=
    set_config {| APIBaseURL := ""; LogGQLErrors := false;
                  AccessToken := "tok"; Organization := slug |}
      (set_client (client.FromToken "tok") Background) in
  let w := sample.start
             (sample.machine no_layer NotExist
                (ok [sample.acme; sample.personal; sample.other])) [] in
  @command.RequireOrg go_small (Some (ctx "other")) w =
    (Ret (Some (set_org (Some sample.other) (ctx "other")), None),
     logged w [GetOrganizations None]) ∧
  @command.RequireOrg go_small (Some (ctx "ghost-org")) w =
    (Ret (None, Some (Errorf_q "Organization %q not found" "ghost-org")),
     logged w [GetOrganizations None]).
Proof.
  intros ctx w. split.
  - destruct (proj1 (@RequireOrg_slug_override go_small go_small_contract (ctx "other")
                       (client.FromToken "tok") _ _ w
                       eq_refl eq_refl eq_refl ltac:(discriminate) eq_refl)
                sample.other ltac:(vm_compute; set_solver) eq_refl)
      as (org' & _ & _ & Hrun & Hsame).
    rewrite Hrun, Hsame; [reflexivity|].
    intros o Ho Hs. vm_compute in Ho.
    apply elem_of_cons in Ho as [->|Ho]; [discriminate|].
    apply elem_of_cons in Ho as [->|Ho]; [discriminate|].
    apply elem_of_cons in Ho as [->|Ho]; [reflexivity|].
    now apply elem_of_nil in Ho.
  - apply (proj2 (@RequireOrg_slug_override go_small go_small_contract (ctx "ghost-org")
                    (client.FromToken "tok") _ _ w
                    eq_refl eq_refl eq_refl ltac:(discriminate) eq_refl)).
    intros o Ho. vm_compute in Ho.
    apply elem_of_cons in Ho as [->|Ho]; [discriminate|].
    apply elem_of_cons in Ho as [->|Ho]; [discriminate|].
    apply elem_of_cons in Ho as [->|Ho]; [discriminate|].
    now apply elem_of_nil in Ho.
Defined.

(** ** The prompt *)

(** Where [hunt] ends: at the place it started with, or at a place of the
    options that holds the value. *)
Lemma hunt_found (options : list string) (val : string) (i j : nat)
    (idx : option nat) :
  survey.hunt i options val idx = Some j →
  idx = Some j ∨ ∃ k, j = (i + k)%nat ∧ options !! k = Some val.
Proof.
  revert i idx. induction options as [|o options IH]; intros i idx E; cbn in E.
  - now left.
  - apply IH in E as [E|(k & -> & Hk)].
    + destruct (String.eqb o val) eqn:Ho; [|now left].
      injection E as <-. apply String.eqb_eq in Ho as ->.
      right. exists 0%nat. split; [lia|reflexivity].
    + right. exists (S k). split; [lia|exact Hk].
Qed.

Lemma hunt_keeps (options : list string) (val : string) (i : nat)
    (idx : option nat) :
  is_Some idx → is_Some (survey.hunt i options val idx).
Proof.
  revert i idx. induction options as [|o options IH]; intros i idx Hidx; cbn;
    [exact Hidx|].
  apply IH. destruct (String.eqb o val); eauto.
Qed.

(** [hunt] ends at or after every place that holds the value. *)
Lemma hunt_last (options : list string) (val : string) (i k : nat)
    (idx : option nat) :
  options !! k = Some val →
  ∃ k', survey.hunt i options val idx = Some (i + k')%nat ∧
        options !! k' = Some val ∧ (k ≤ k')%nat.
Proof.
  revert i k idx. induction options as [|o options IH]; intros i k idx Hk;
    [discriminate|]. cbn [survey.hunt].
  destruct k as [|k]; cbn in Hk.
  - injection Hk as ->. rewrite String.eqb_refl.
    destruct (survey.hunt (S i) options val (Some i)) as [j|] eqn:E.
    + apply hunt_found in E as [E|(k' & -> & Hk')].
      * injection E as <-. exists 0%nat. rewrite Nat.add_0_r.
        split; [reflexivity|]. split; [reflexivity|lia].
      * exists (S k'). replace (i + S k')%nat with (S i + k')%nat by lia.
        split; [reflexivity|]. split; [exact Hk'|lia].
    + destruct (hunt_keeps options val (S i) (Some i)) as [j Hj]; [eauto|].
      congruence.
  - destruct (IH (S i) k (if String.eqb o val then Some i else idx) Hk)
      as (k' & E & Hk' & Hle).
    exists (S k'). rewrite E. replace (S i + k')%nat with (i + S k')%nat by lia.
    split; [reflexivity|]. split; [exact Hk'|lia].
Qed.

(** The place reported for a pick shows the label picked; it is the place
    picked when no other entry shows that label. *)
Lemma reported_label (orgs : list api.Organization) (i : nat)
    (org : api.Organization) :
  orgs !! i = Some org →
  ∃ org', orgs !! survey.reported (map command.label orgs) i = Some org' ∧
          command.label org' = command.label org ∧
          (NoDup (map command.label orgs) → org' = org).
Proof.
  intros Hi. unfold survey.reported.
  assert (map command.label orgs !! i = Some (command.label org)) as Hl
    by now rewrite list_lookup_fmap, Hi.
  rewrite Hl. cbn.
  destruct (hunt_last _ _ 0 i None Hl) as (j & -> & Hj & _). cbn.
  pose proof Hj as Hj'. rewrite list_lookup_fmap in Hj'.
  destruct (orgs !! j) as [org'|] eqn:Ho; [|discriminate].
  injection Hj' as Hlab. exists org'. split; [reflexivity|]. split; [exact Hlab|].
  intros Hnd. pose proof (NoDup_lookup _ _ _ _ Hnd Hl Hj) as <-. congruence.
Qed.

Lemma reported_beyond (orgs : list api.Organization) (i : nat) :
  orgs !! i = None →
  orgs !! survey.reported (map command.label orgs) i = None.
Proof.
  intros Hi. unfold survey.reported.
  now rewrite list_lookup_fmap, Hi.
Qed.

Lemma selectOrg_run (orgs : list api.Organization) (w : World) :
  command.selectOrg orgs w =
  match orgs with
  | [] =>
      (Ret (None, Some (errorString "please provide options to select from")), w)
  | _ :: _ =>
      let w' := prompted w (AskSelect "Select organization:"
                              (map command.label orgs) 15) in
      match replies w with
      | Choose i :: _ =>
          match orgs !! survey.reported (map command.label orgs) i with
          | Some org => (Ret (Some org, None), w')
          | None => (Panic "index out of range", w')
          end
      | Interrupt :: _ => (Ret (None, Some InterruptErr), w')
      | Broken e :: _ => (Ret (None, Some e), w')
      | YesNo _ :: _ => (Ret (None, Some (errorString "unexpected answer")), w')
      | [] => (Ret (None, Some EOF), w')
      end
  end.
Proof.
  unfold command.selectOrg.
  destruct orgs as [|o orgs]; [reflexivity|].
  unfold survey.AskOne_Select, prompted. cbn [map]. run.
  destruct (replies w) as [|[i|b| |e] rs]; cbn; try reflexivity.
  now destruct (_ !! _).
Qed.

(** With something to choose from the prompt is shown. *)
Lemma selectOrg_asks (orgs : list api.Organization) (w : World) :
  orgs ≠ [] →
  command.selectOrg orgs w =
  let w' := prompted w (AskSelect "Select organization:"
                          (map command.label orgs) 15) in
  match replies w with
  | Choose i :: _ =>
      match orgs !! survey.reported (map command.label orgs) i with
      | Some org => (Ret (Some org, None), w')
      | None => (Panic "index out of range", w')
      end
  | Interrupt :: _ => (Ret (None, Some InterruptErr), w')
  | Broken e :: _ => (Ret (None, Some e), w')
  | YesNo _ :: _ => (Ret (None, Some (errorString "unexpected answer")), w')
  | [] => (Ret (None, Some EOF), w')
  end.
Proof.
  intros Hne. rewrite selectOrg_run. destruct orgs; [congruence|reflexivity].
Qed.

Lemma sorted_not_empty `{GoSortContract} (orgs : list api.Organization) :
  orgs ≠ [] → sort_Slice command.by_type orgs ≠ [].
Proof.
  intros Hne Hs. pose proof (sort_Slice_perm _ command.by_type orgs) as Hp.
  rewrite Hs in Hp. apply Hne. symmetry in Hp. now apply Permutation_nil_r in Hp.
Qed.

Lemma sole_personal_sorted `{GoSortContract} (orgs : list api.Organization) :
  command.sole_personal (sort_Slice command.by_type orgs)
  = command.sole_personal orgs.
Proof.
  pose proof (sort_Slice_perm _ command.by_type orgs) as Hp.
  destruct orgs as [|x [|y orgs]].
  - apply Permutation_nil_r in Hp. now rewrite Hp.
  - apply Permutation_singleton_r in Hp. now rewrite Hp.
  - apply Permutation_length in Hp. unfold command.sole_personal.
    rewrite Hp. reflexivity.
Qed.

(** The third row of the table: the prompt over the sorted list. *)
Lemma RequireOrg_prompt_run `{GoSortContract} (f : Facts) (c : Client) (cfg : Config)
    (orgs : list api.Organization) (w : World) :
  f_client f = Some c →
  client.Authenticated c = true →
  f_config f = Some cfg →
  Organization cfg = "" →
  remote_orgs (host w) (api_of c) None = ok orgs →
  command.sole_personal orgs = false →
  command.RequireOrg (Some f) w =
  match command.selectOrg (sort_Slice command.by_type orgs)
          (logged w [GetOrganizations None]) with
  | (Ret (org, None), w') => (Ret (Some (set_org org f), None), w')
  | (Ret (_, Some e), w') => (Ret (None, Some e), w')
  | (Panic why, w') => (Panic why, w')
  end.
Proof.
  intros Hc Ha Hcfg Hslug Horgs Hsole.
  to_table Hc Ha Hcfg Horgs. rewrite Hslug, sole_personal_sorted, Hsole. cbn.
  unfold logged.
  destruct (command.selectOrg _ _) as [[[org [e|]]|why] w']; reflexivity.
Qed.

(** ** The sort before the table *)

Lemma StronglySorted_lookup {A} (R : A → A → Prop) (l : list A) (i j : nat) (a b : A) :
  StronglySorted R l → (i < j)%nat → l !! i = Some a → l !! j = Some b → R a b.
Proof.
  intros Hs. revert i j. induction Hs as [|x l Hs IH Hx]; intros i j Hij Hi Hj.
  - discriminate.
  - destruct j as [|j]; [lia|]. cbn in Hj. destruct i as [|i].
    + injection Hi as <-. rewrite Forall_forall in Hx.
      apply Hx. now apply list_elem_of_lookup_2 in Hj.
    + cbn in Hi. apply (IH i j); [lia|assumption..].
Qed.

(** C3, as the code has it.  With the session and the fetch in place,
    [RequireOrg] evaluates its decision table on [sort.Slice] of the
    fetched list by type: a permutation of the fetch in ascending order of
    the type, so that every PERSONAL entry is before every SHARED entry.
    The slug row scans that list and the prompt row presents it.  The
    order among entries of one type is whatever [sort.Slice] leaves. *)
Theorem RequireOrg_sorts_by_type `{GoSortContract} (f : Facts) (c : Client) (cfg : Config)
    (orgs : list api.Organization) (w : World) :
  f_client f = Some c →
  client.Authenticated c = true →
  f_config f = Some cfg →
  remote_orgs (host w) (api_of c) None = ok orgs →
  let sorted := sort_Slice command.by_type orgs in
  sorted ≡ₚ orgs ∧
  sorted_by_type sorted ∧
  (∀ i j p s, sorted !! i = Some p → sorted !! j = Some s →
     api.Type' p = "PERSONAL" → api.Type' s = "SHARED" → (i < j)%nat) ∧
  (Organization cfg ≠ "" →
     command.RequireOrg (Some f) w =
     match List.find (λ o, String.eqb (Organization cfg) (api.Slug o)) sorted with
     | Some org =>
         (Ret (Some (set_org (Some org) f), None), logged w [GetOrganizations None])
     | None =>
         (Ret (None, Some (Errorf_q "Organization %q not found" (Organization cfg))),
          logged w [GetOrganizations None])
     end) ∧
  (Organization cfg = "" → command.sole_personal orgs = false →
     command.RequireOrg (Some f) w =
     match command.selectOrg sorted (logged w [GetOrganizations None]) with
     | (Ret (org, None), w') => (Ret (Some (set_org org f), None), w')
     | (Ret (_, Some e), w') => (Ret (None, Some e), w')
     | (Panic why, w') => (Panic why, w')
     end).
Proof.
  intros Hc Ha Hcfg Horgs sorted.
  assert (sorted_by_type sorted) as Hsorted
    by apply sort_Slice_sorted, by_type_StrictWeak.
  split; [apply sort_Slice_perm|]. split; [exact Hsorted|]. split; [|split].
  - intros i j p s Hp Hs Tp Ts.
    destruct (Nat.lt_trichotomy i j) as [Hlt|[->|Hgt]]; [exact Hlt| |].
    + rewrite Hp in Hs. injection Hs as ->. rewrite Tp in Ts. discriminate.
    + pose proof (StronglySorted_lookup _ _ _ _ _ _ Hsorted Hgt Hs Hp) as Hord.
      cbn in Hord. unfold command.by_type in Hord. rewrite Tp, Ts in Hord.
      discriminate.
  - intros Hslug. now apply (RequireOrg_slug_run f c).
  - intros Hslug Hsole. now apply (RequireOrg_prompt_run f c cfg).
Qed.

Lemma RequireOrg_sorts_by_type_witness :
  let f := set_config sample.defaults
             (set_client (client.FromToken "tok") Background) in
  let w := sample.start (sample.machine no_layer NotExist (ok sample.seven))
             [Choose 0] in
  @sort_Slice go_small _ command.by_type sample.seven ≡ₚ sample.seven ∧
  sorted_by_type (@sort_Slice go_small _ command.by_type sample.seven) ∧
  @command.RequireOrg go_small (Some f) w =
  (Ret (Some (set_org (Some sample.personal) f), None),
   {| host := host w;
      events := [GetOrganizations None;
                 AskSelect "Select organization:"
                   ["Ada (personal)"; "b (b)"; "c (c)"; "d (d)"; "e (e)";
                    "f (f)"; "a (a)"] 15];
      replies := [] |}).
Proof.
  intros f w.
  destruct (@RequireOrg_sorts_by_type go_small go_small_contract f (client.FromToken "tok")
              sample.defaults sample.seven w eq_refl eq_refl eq_refl eq_refl)
    as (Hperm & Hsorted & _ & _ & Hprompt).
  split; [exact Hperm|]. split; [exact Hsorted|].
  rewrite (Hprompt eq_refl eq_refl). vm_compute. reflexivity.
Defined.

(** C3, as stated, fails.  On six shared organizations followed by the
    personal one, the two passes that [sort.Slice] runs on a short slice
    bring the personal entry first by exchanging it with the first shared
    one: the shared organization fetched first is presented last. *)
Lemma RequireOrg_stable_sort_counterexample :
  let f := set_config sample.defaults
             (set_client (client.FromToken "tok") Background) in
  let w := sample.start (sample.machine no_layer NotExist (ok sample.seven)) [] in
  let sorted := @sort_Slice go_small _ command.by_type sample.seven in
  map api.Slug sample.seven = ["a"; "b"; "c"; "d"; "e"; "f"; "personal"] ∧
  map api.Slug sorted = ["personal"; "b"; "c"; "d"; "e"; "f"; "a"] ∧
  ¬ keeps_fetch_order sample.seven sorted ∧
  events (@command.RequireOrg go_small (Some f) w).2 =
    [GetOrganizations None;
     AskSelect "Select organization:"
       ["Ada (personal)"; "b (b)"; "c (c)"; "d (d)"; "e (e)"; "f (f)"; "a (a)"]
       15].
Proof.
  intros f w sorted. split; [reflexivity|]. split; [reflexivity|]. split.
  - intros Hkeep. specialize (Hkeep "SHARED"). vm_compute in Hkeep. discriminate.
  - vm_compute. reflexivity.
Qed.

(** ** The configuration *)

Lemma overlay_option (k : Opt) (l : Layer) (cfg : Config) :
  option_of k (overlay l cfg) = default (option_of k cfg) (set_by k l).
Proof.
  destruct k, l as [u g t o]; cbn;
    [destruct u|destruct g|destruct t|destruct o]; reflexivity.
Qed.

(** What [loadConfig] does once the file has been looked at. *)
Lemma loadConfig_run (f : Facts) (path : string) (fs : Layer) (w : World) :
  f_configFile f = Some path →
  f_flags f = Some fs →
  let base := overlay (os_Environ (host w)) (config_defaults (host w)) in
  let loaded cfg es :=
    (Ret (Some (set_config (overlay fs cfg) f), None) : outcome (context * error),
     logged w (es ++ [Debug "config initialized."])) in
  command.loadConfig (Some f) w =
  match os_File (host w) path with
  | Parsed file => loaded (overlay file base) []
  | NotExist => loaded base [Warnf "no config file found at %s" [path]]
  | Unusable e =>
      if errors_Is_ErrNotExist e
      then loaded base [Warnf "no config file found at %s" [path]]
      else (Ret (None, Some e), w)
  end.
Proof.
  intros Hpath Hfs base loaded.
  unfold command.loadConfig, config.New, config.ApplyEnv, state.ConfigFile,
    config.ApplyFile, flag.FromContext, config.ApplyFlags, config.NewContext,
    logger.Warnf, logger.Debug.
  run. rewrite Hpath. run.
  destruct (os_File (host w) path) as [|e|file]; cbn;
    [|destruct (errors_Is_ErrNotExist e); [|reflexivity]; cbn|];
    rewrite Hfs; unfold loaded, logged; cbn; now rewrite <- ?app_assoc.
Qed.

(** C5.  [loadConfig] lays the sources over the defaults in the order
    environment, file, flags, and stores the result in the context.  For
    every option the value is that of the flags if they set it, else that of
    the file if it sets it, else that of the environment if it sets it, else
    the default. *)
Theorem loadConfig_precedence (f : Facts) (path : string) (fs file : Layer)
    (w : World) :
  f_configFile f = Some path →
  f_flags f = Some fs →
  os_File (host w) path = Parsed file →
  let env := os_Environ (host w) in
  let defaults := config_defaults (host w) in
  let cfg := overlay fs (overlay file (overlay env defaults)) in
  command.loadConfig (Some f) w =
    (Ret (Some (set_config cfg f), None), logged w [Debug "config initialized."]) ∧
  ∀ k : Opt,
    option_of k cfg =
    match set_by k fs, set_by k file, set_by k env with
    | Some v, _, _ => v
    | None, Some v, _ => v
    | None, None, Some v => v
    | None, None, None => option_of k defaults
    end.
Proof.
  intros Hpath Hfs Hfile env defaults cfg. split.
  - rewrite (loadConfig_run f path fs w Hpath Hfs), Hfile. reflexivity.
  - intros k. unfold cfg. rewrite !overlay_option.
    destruct (set_by k fs), (set_by k file), (set_by k env); reflexivity.
Qed.

(** The scenario of the specification: the environment sets the base URL
    to A, the file sets it to B and the organization to acme, the flags set
    the organization to the empty string. *)
Lemma loadConfig_precedence_witness :
  let env := {| l_APIBaseURL := Some "A"; l_LogGQLErrors := None;
                l_AccessToken := Some "tok"; l_Organization := None |} in
  let file := {| l_APIBaseURL := Some "B"; l_LogGQLErrors := None;
                 l_AccessToken := None; l_Organization := Some "acme" |} in
  let fs := {| l_APIBaseURL := None; l_LogGQLErrors := None;
               l_AccessToken := None; l_Organization := Some "" |} in
  let f := set_flags fs (set_configFile "/home/ada/.fly/config.yml" Background) in
  let w := sample.start (sample.machine env (Parsed file) (ok [])) [] in
  command.loadConfig (Some f) w =
  (Ret (Some (set_config {| APIBaseURL := "B"; LogGQLErrors := false;
                            AccessToken := "tok"; Organization := "" |} f), None),
   logged w [Debug "config initialized."]).
Proof.
  intros env file fs f w.
  exact (proj1 (loadConfig_precedence f "/home/ada/.fly/config.yml" fs file w
                  eq_refl eq_refl eq_refl)).
Defined.

(** C6.  A config file that is missing at the path is not an error:
    [loadConfig] warns and goes on with the defaults, the environment and
    the flags.  A file that cannot be applied for another reason ends
    [loadConfig] with that error before anything is logged, and with it the
    chain [loadConfig] runs in. *)
Theorem loadConfig_file (f : Facts) (path : string) (fs : Layer) (w : World) :
  f_configFile f = Some path →
  f_flags f = Some fs →
  (os_File (host w) path = NotExist →
     command.loadConfig (Some f) w =
     (Ret (Some (set_config
                   (overlay fs (overlay (os_Environ (host w))
                                        (config_defaults (host w)))) f), None),
      logged w [Warnf "no config file found at %s" [path];
                Debug "config initialized."])) ∧
  (∀ e, os_File (host w) path = Unusable e → errors_Is_ErrNotExist e = false →
     command.loadConfig (Some f) w = (Ret (None, Some e), w) ∧
     ∀ after, command.prepare (Some f) (command.loadConfig :: after) w
              = (Ret (None, Some e), w)).
Proof.
  intros Hpath Hfs.
  pose proof (loadConfig_run f path fs w Hpath Hfs) as Hrun. cbn zeta in Hrun.
  split.
  - intros Hmiss. rewrite Hrun, Hmiss. reflexivity.
  - intros e Hbad Hnot. rewrite Hbad, Hnot in Hrun.
    split; [exact Hrun|]. intros after. now apply prepare_stops.
Qed.

Lemma loadConfig_file_witness :
  let fs := sample.token "tok" in
  let f := set_flags fs (set_configFile "/home/ada/.fly/config.yml" Background) in
  let missing := sample.start (sample.machine no_layer NotExist (ok [])) [] in
  let broken := sample.start
                  (sample.machine no_layer
                     (Unusable (errorString "yaml: did not find expected key"))
                     (ok [])) [] in
  command.loadConfig (Some f) missing =
    (Ret (Some (set_config {| APIBaseURL := "https://api.fly.io";
                              LogGQLErrors := false; AccessToken := "tok";
                              Organization := "" |} f), None),
     logged missing
       [Warnf "no config file found at %s" ["/home/ada/.fly/config.yml"];
        Debug "config initialized."]) ∧
  command.prepare (Some f) [command.loadConfig; command.initClient] broken =
    (Ret (None, Some (errorString "yaml: did not find expected key")), broken).
Proof.
  intros fs f missing broken. split.
  - exact (proj1 (loadConfig_file f _ fs missing eq_refl eq_refl) eq_refl).
  - exact (proj2 (proj2 (loadConfig_file f _ fs broken eq_refl eq_refl)
                    _ eq_refl eq_refl) [command.initClient]).
Defined.

(** ** The legacy selector *)

Lemma selectOrganization_sole `{GoSort} (ac : api.Client) (slug : string)
    (tf : option string) (org : api.Organization) (w : World) :
  remote_orgs (host w) ac tf = ok [org] →
  api.Type' org = "PERSONAL" →
  command.selectOrganization (Some ac) slug tf w =
  (Ret (Some org, None),
   logged w [GetOrganizations tf;
             Printf "Automatically selected %s organization: %s\n"
                    ["personal"; api.Name org]]).
Proof.
  intros Horgs Hty.
  unfold command.selectOrganization, api_GetOrganizations, fmt.Printf. run.
  rewrite Horgs. cbn. rewrite Hty. cbn.
  unfold logged. now rewrite <- app_assoc.
Qed.

Lemma selectOrganization_prompt `{GoSort} (ac : api.Client) (slug : string)
    (tf : option string) (orgs : list api.Organization) (w : World) :
  remote_orgs (host w) ac tf = ok orgs →
  command.sole_personal orgs = false →
  command.selectOrganization (Some ac) slug tf w =
  command.selectOrg (sort_Slice command.by_type orgs) (logged w [GetOrganizations tf]).
Proof.
  intros Horgs Hsole.
  unfold command.selectOrganization, command.selectOrg, api_GetOrganizations,
    survey.AskOne_Select.
  run. rewrite Horgs. cbn. rewrite Hsole. reflexivity.
Qed.







(** * Further properties *)

(** ** Chains and the dispatcher *)

(** X1.  Chains compose: running the chain [l1 ++ l2] is running [l1]
    and, if it got through, [l2] on the context and the world [l1] left; an
    error or a panic of [l1] is the result of the whole.  The empty chain
    returns its parent and touches nothing. *)
Theorem prepare_composes (l1 l2 : list Preparer) (parent : context) (w : World) :
  command.prepare parent (l1 ++ l2) w =
  ('(ctx, err) ← command.prepare parent l1;
   if is_nil err then command.prepare ctx l2 else mret (ctx, err)) w ∧
  command.prepare parent [] w = (Ret (parent, None), w).
Proof.
  split; [|reflexivity].
  rewrite prepare_app. unfold mbind, M_bind.
  destruct (command.prepare parent l1 w) as [[[ctx [e|]]|why] w1]; reflexivity.
Qed.

(** X2.  The function [newRunE] builds runs one chain: on a command that
    has a context, the common preparers and the preparers of the command
    run as one chain from the context that holds the command and its flags,
    the body runs on the context the chain ends with, and the result is the
    body's, or the error or the panic that stopped the chain.  Without a
    body there is no function. *)
Theorem newRunE_dispatch (fn : Runner) (preparers : list Preparer)
    (cmd : Command) (args : list string) (f : Facts) (w : World) :
  cmd_Context cmd = Some f →
  command.newRunE None preparers = None ∧
  ∃ run, command.newRunE (Some fn) preparers = Some run ∧
    run cmd args w =
    match command.prepare
            (Some (set_flags (cmd_Flags cmd) (set_command (Use cmd) f)))
            (command.commonPreparers ++ preparers) w with
    | (Ret (ctx, None), w') => fn ctx w'
    | (Ret (_, Some e), w') => (Ret (Some e), w')
    | (Panic why, w') => (Panic why, w')
    end.
Proof.
  intros Hc. split; [reflexivity|].
  exact (newRunE_chain fn preparers cmd args f w Hc).
Qed.

(** A command with one preparer on a machine without a config file: the
    body runs last. *)
Lemma newRunE_dispatch_witness :
  ∃ run, command.newRunE (Some sample.body) [sample.passing "p1"] = Some run ∧
    (run sample.move_cmd []
       (sample.start (sample.machine no_layer NotExist (ok [])) [])).1 = Ret None ∧
    drop 10 (events (run sample.move_cmd []
       (sample.start (sample.machine no_layer NotExist (ok [])) [])).2)
    = [Debug "p1"; Println "body"].
Proof.
  destruct (proj2 (newRunE_dispatch sample.body [sample.passing "p1"]
                     sample.move_cmd [] Background
                     (sample.start (sample.machine no_layer NotExist (ok [])) [])
                     eq_refl)) as (run & Hrun & Heq).
  exists run. split; [exact Hrun|]. rewrite Heq.
  split; vm_compute; reflexivity.
Defined.

(** ** The common preparers *)








(** ** The client and the session *)

(** X5.  [initClient] sets the base URL and the error log of the API from
    the configuration and stores the client made from its access token in
    place of whatever client the context held.  [RequireSession] right
    after it therefore decides on that token alone: the two in a chain fail
    with [ErrNoAuthToken] exactly when the client of the token is not
    authenticated. *)
Theorem initClient_session (f : Facts) (cfg : Config) (w : World) :
  f_config f = Some cfg →
  let c := client.FromToken (AccessToken cfg) in
  let w' := logged w [SetBaseURL (APIBaseURL cfg); SetErrorLog (LogGQLErrors cfg);
                      Debug "client initialized."] in
  command.initClient (Some f) w = (Ret (Some (set_client c f), None), w') ∧
  command.prepare (Some f) [command.initClient; command.RequireSession] w =
    (if client.Authenticated c
     then (Ret (Some (set_client c f), None), w')
     else (Ret (None, Some ErrNoAuthToken), w')).
Proof.
  intros Hcfg c w'.
  assert (command.initClient (Some f) w = (Ret (Some (set_client c f), None), w'))
    as Hinit.
  { unfold command.initClient, config.FromContext, client.NewContext, logger.Debug.
    run. rewrite Hcfg. run. unfold w', logged. cbn.
    now rewrite <- !app_assoc. }
  split; [exact Hinit|].
  cbn [command.prepare]. rewrite (bind_Ret _ _ _ _ _ Hinit). cbn [is_nil].
  unfold mbind, M_bind.
  rewrite (RequireSession_run (set_client c f) c w' eq_refl).
  now destruct (client.Authenticated c).
Qed.

Lemma initClient_session_witness :
  let f := set_client (client.FromToken "stale") (sample.ready "") in
  let anonymous := set_config sample.defaults f in
  let w := sample.start (sample.machine no_layer NotExist (ok [])) [] in
  command.prepare (Some f) [command.initClient; command.RequireSession] w =
    (Ret (Some (set_client (client.FromToken "tok") f), None),
     logged w [SetBaseURL "https://api.fly.io"; SetErrorLog false;
               Debug "client initialized."]) ∧
  command.prepare (Some anonymous) [command.initClient; command.RequireSession] w =
    (Ret (None, Some ErrNoAuthToken),
     logged w [SetBaseURL "https://api.fly.io"; SetErrorLog false;
               Debug "client initialized."]).
Proof.
  intros f anonymous w. split.
  - exact (proj2 (initClient_session f _ w eq_refl)).
  - exact (proj2 (initClient_session anonymous _ w eq_refl)).
Defined.

(** ** More on the organization *)

Lemma sole_personal_iff (orgs : list api.Organization) :
  command.sole_personal orgs = true ↔
  ∃ org, orgs = [org] ∧ api.Type' org = "PERSONAL".
Proof.
  unfold command.sole_personal. split.
  - destruct orgs as [|org [|org' orgs]]; cbn; try discriminate.
    intros E. apply String.eqb_eq in E. now exists org.
  - intros (org & -> & Hty). cbn. now apply String.eqb_eq.
Qed.

Lemma RequireOrg_fetch_failed_run `{GoSort} (f : Facts) (c : Client) (e : Err)
    (w : World) :
  f_client f = Some c →
  client.Authenticated c = true →
  remote_orgs (host w) (api_of c) None = failed e →
  command.RequireOrg (Some f) w = (Ret (None, Some e), logged w [GetOrganizations None]).
Proof.
  intros Hc Ha Horgs.
  pose proof (RequireSession_run f c w Hc) as Hrun. rewrite Ha in Hrun.
  unfold command.RequireOrg. rewrite (bind_Ret _ _ _ _ _ Hrun). cbn [is_nil negb].
  unfold client.FromContext, api_GetOrganizations, client.API.
  run. rewrite Hc. run. rewrite Ha. run. rewrite Horgs. reflexivity.
Qed.

Lemma selectOrganization_fetch_failed_run `{GoSort} (ac : api.Client)
    (slug : string) (tf : option string) (e : Err) (w : World) :
  remote_orgs (host w) ac tf = failed e →
  command.selectOrganization (Some ac) slug tf w =
  (Ret (None, Some e), logged w [GetOrganizations tf]).
Proof.
  intros Horgs. unfold command.selectOrganization, api_GetOrganizations.
  run. rewrite Horgs. reflexivity.
Qed.

(** X6.  When the remote fails to list the organizations, [RequireOrg]
    returns the error of the remote as it is, with a nil context, and so
    does the legacy selector with a nil organization; the trace gains the
    fetch alone and the user is not asked.  [RequireOrg] does not look at the
    slug override then: the context need not hold a configuration. *)
Theorem RequireOrg_fetch_fails `{GoSort} (f : Facts) (c : Client) (e : Err)
    (slug : string) (w : World) :
  f_client f = Some c →
  client.Authenticated c = true →
  remote_orgs (host w) (api_of c) None = failed e →
  command.RequireOrg (Some f) w
    = (Ret (None, Some e), logged w [GetOrganizations None]) ∧
  command.selectOrganization (client.API c) slug None w
    = (Ret (None, Some e), logged w [GetOrganizations None]).
Proof.
  intros Hc Ha Horgs. split.
  - now apply (RequireOrg_fetch_failed_run f c).
  - unfold client.API. rewrite Ha.
    now apply selectOrganization_fetch_failed_run.
Qed.

Lemma RequireOrg_fetch_fails_witness :
  let f := set_client (client.FromToken "tok") Background in
  let w := sample.start scenario.offline [Choose 0] in
  @command.RequireOrg go_small (Some f) w =
  (Ret (None, Some (errorString "connection refused")),
   logged w [GetOrganizations None]).
Proof.
  intros f w.
  exact (proj1 (@RequireOrg_fetch_fails go_small f (client.FromToken "tok") _ ""
                  w eq_refl eq_refl eq_refl)).
Defined.

(** X7.  No slug override and a fetched list that is not one personal
    organization alone.  With nothing fetched [RequireOrg] fails at once
    with the error of the prompt library for a prompt without options:
    nothing is shown and no reply is taken.  With something fetched it asks
    once: whatever the user does, the trace gains the fetch and one prompt
    that shows the labels [<name> (<slug>)] of the sorted list, and one
    reply is taken.  When the user picks an entry, an organization that the
    prompt shows under the label picked is stored, one of the fetched ones;
    it is the entry picked when no two fetched organizations have the same
    label. *)
Theorem RequireOrg_asks_once `{GoSortContract} (f : Facts) (c : Client)
    (cfg : Config) (orgs : list api.Organization) (w : World) :
  f_client f = Some c →
  client.Authenticated c = true →
  f_config f = Some cfg →
  Organization cfg = "" →
  remote_orgs (host w) (api_of c) None = ok orgs →
  (∀ org, orgs = [org] → api.Type' org ≠ "PERSONAL") →
  let sorted := sort_Slice command.by_type orgs in
  let shown := AskSelect "Select organization:" (map command.label sorted) 15 in
  (orgs = [] →
     command.RequireOrg (Some f) w =
     (Ret (None, Some (errorString "please provide options to select from")),
      logged w [GetOrganizations None])) ∧
  (orgs ≠ [] →
     (command.RequireOrg (Some f) w).2
       = prompted (logged w [GetOrganizations None]) shown ∧
     ∀ i org rs, replies w = Choose i :: rs → sorted !! i = Some org →
       ∃ org', (command.RequireOrg (Some f) w).1
                 = Ret (Some (set_org (Some org') f), None) ∧
               org' ∈ orgs ∧
               command.label org' = command.label org ∧
               (NoDup (map command.label orgs) → org' = org)).
Proof.
  intros Hc Ha Hcfg Hslug Horgs Hnot sorted shown.
  assert (command.sole_personal orgs = false) as Hsole.
  { destruct (command.sole_personal orgs) eqn:E; [|reflexivity].
    apply sole_personal_iff in E as (org & -> & Hty). now destruct (Hnot org). }
  rewrite (RequireOrg_prompt_run f c cfg orgs w Hc Ha Hcfg Hslug Horgs Hsole).
  fold sorted. split.
  - intros ->. assert (sorted = []) as ->.
    { unfold sorted. apply Permutation_nil_r. apply sort_Slice_perm. }
    reflexivity.
  - intros Hne. rewrite (selectOrg_asks sorted _ (sorted_not_empty orgs Hne)).
    cbn zeta. fold sorted shown.
    change (replies (logged w [GetOrganizations None])) with (replies w). split.
    + destruct (replies w) as [|[i|b| |e] rs]; try reflexivity.
      now destruct (sorted !! _).
    + intros i org rs -> Hi.
      destruct (reported_label sorted i org Hi) as (org' & Hrep & Hlab & Hsame).
      rewrite Hrep. exists org'. split; [reflexivity|].
      split; [|split; [exact Hlab|]].
      * apply list_elem_of_lookup_2 in Hrep. unfold sorted in Hrep.
        now rewrite sort_Slice_perm in Hrep.
      * intros Hnd. apply Hsame. unfold sorted.
        now rewrite sort_Slice_perm.
Qed.

(** A sole organization that is shared is not selected by itself, and
    nothing fetched is an error without a prompt. *)
Lemma RequireOrg_asks_once_witness :
  let w := sample.start (sample.machine no_layer NotExist (ok [sample.acme]))
             [Choose 0] in
  let none := sample.start (sample.machine no_layer NotExist (ok [])) [Choose 0] in
  @command.RequireOrg go_small (Some (sample.ready "")) w =
    (Ret (Some (set_org (Some sample.acme) (sample.ready "")), None),
     {| host := host w;
        events := [GetOrganizations None;
                   AskSelect "Select organization:" ["Acme (acme)"] 15];
        replies := [] |}) ∧
  @command.RequireOrg go_small (Some (sample.ready "")) none =
    (Ret (None, Some (errorString "please provide options to select from")),
     {| host := host none; events := [GetOrganizations None];
        replies := [Choose 0] |}).
Proof.
  intros w none. split.
  - destruct (@RequireOrg_asks_once go_small go_small_contract (sample.ready "")
                (client.FromToken "tok") _ [sample.acme] w
                eq_refl eq_refl eq_refl eq_refl eq_refl)
      as (_ & Hask).
    { intros org E. injection E as <-. discriminate. }
    destruct (Hask ltac:(discriminate)) as (Hworld & Hpick).
    destruct (Hpick 0%nat sample.acme [] eq_refl eq_refl)
      as (org' & Hres & _ & _ & Hsame).
    rewrite Hsame in Hres by (vm_compute; repeat constructor; set_solver).
    destruct (@command.RequireOrg go_small (Some (sample.ready "")) w) as [r w'].
    cbn in Hworld, Hres. now subst.
  - destruct (@RequireOrg_asks_once go_small go_small_contract (sample.ready "")
                (client.FromToken "tok") _ [] none
                eq_refl eq_refl eq_refl eq_refl eq_refl)
      as (Hnone & _).
    { intros org E. discriminate. }
    exact (Hnone eq_refl).
Defined.

(** The first row of the table. *)
Lemma RequireOrg_sole_run `{GoSortContract} (f : Facts) (c : Client) (cfg : Config)
    (org : api.Organization) (w : World) :
  f_client f = Some c →
  client.Authenticated c = true →
  f_config f = Some cfg →
  Organization cfg = "" →
  remote_orgs (host w) (api_of c) None = ok [org] →
  api.Type' org = "PERSONAL" →
  command.RequireOrg (Some f) w =
  (Ret (Some (set_org (Some org) f), None),
   logged w [GetOrganizations None;
             Warnf "Automatically selected %s organization: %s\n"
                   ["personal"; api.Name org]]).
Proof.
  intros Hc Ha Hcfg Hslug Horgs Hty.
  to_table Hc Ha Hcfg Horgs. rewrite Hslug, sort_Slice_single. cbn.
  rewrite Hty. cbn. unfold logged. now rewrite <- app_assoc.
Qed.

(** X8.  What [RequireOrg] can return, from any context with a client and
    a configuration and in any world: with an error the context is nil;
    without one the context is the given one with one organization stored,
    an organization of the list the remote returned, and nothing else
    changed.  The machine is left as it was. *)
Theorem RequireOrg_outcome `{GoSortContract} (f : Facts) (c : Client) (cfg : Config)
    (w : World) :
  f_client f = Some c →
  f_config f = Some cfg →
  ∀ ctx err w', command.RequireOrg (Some f) w = (Ret (ctx, err), w') →
    host w' = host w ∧
    match err with
    | Some _ => ctx = None
    | None => ∃ orgs org, remote_orgs (host w) (api_of c) None = ok orgs ∧
                org ∈ orgs ∧ ctx = Some (set_org (Some org) f)
    end.
Proof.
  intros Hc Hcfg ctx err w' E.
  destruct (client.Authenticated c) eqn:Ha.
  2:{ pose proof (RequireSession_run f c w Hc) as Hrun. rewrite Ha in Hrun.
      unfold command.RequireOrg in E. rewrite (bind_Ret _ _ _ _ _ Hrun) in E.
      cbn in E. injection E as <- <- <-. split; reflexivity. }
  destruct (remote_orgs (host w) (api_of c) None) as [orgs|e] eqn:Horgs.
  2:{ rewrite (RequireOrg_fetch_failed_run f c e w Hc Ha Horgs) in E.
      injection E as <- <- <-. split; reflexivity. }
  destruct (String.eqb (Organization cfg) "") eqn:Hslug.
  - apply String.eqb_eq in Hslug.
    destruct (command.sole_personal orgs) eqn:Hsole.
    + apply sole_personal_iff in Hsole as (org & -> & Hty).
      rewrite (RequireOrg_sole_run f c cfg org w Hc Ha Hcfg Hslug Horgs Hty) in E.
      injection E as <- <- <-. split; [reflexivity|].
      exists [org], org. repeat split. apply list_elem_of_here.
    + rewrite (RequireOrg_prompt_run f c cfg orgs w Hc Ha Hcfg Hslug Horgs Hsole),
        selectOrg_run in E.
      destruct (sort_Slice command.by_type orgs) as [|o sorted] eqn:Hs.
      { injection E as <- <- <-. split; reflexivity. }
      cbn zeta in E.
      change (replies (logged w [GetOrganizations None])) with (replies w) in E.
      destruct (replies w) as [|[i|b| |e] rs];
        [| destruct ((o :: sorted) !! survey.reported _ i) as [org|] eqn:Hi |..];
        try discriminate; injection E as <- <- <-; (split; [reflexivity|]);
        try reflexivity.
      exists orgs, org. split; [reflexivity|]. split; [|reflexivity].
      apply list_elem_of_lookup_2 in Hi. rewrite <- Hs in Hi.
      now rewrite sort_Slice_perm in Hi.
  - apply String.eqb_neq in Hslug.
    rewrite (RequireOrg_slug_run f c cfg orgs w Hc Ha Hcfg Hslug Horgs) in E.
    destruct (List.find _ _) as [org|] eqn:Hfind;
      injection E as <- <- <-; (split; [reflexivity|]); [|reflexivity].
    exists orgs, org. split; [reflexivity|]. split; [|reflexivity].
    apply List.find_some in Hfind as [Hin _].
    apply list_elem_of_In in Hin. now rewrite sort_Slice_perm in Hin.
Qed.

Lemma RequireOrg_outcome_witness :
  let w := sample.start
             (sample.machine no_layer NotExist
                (ok [sample.acme; sample.personal; sample.other]))
             [Choose 0] in
  ∃ org, f_org <$> (match (@command.RequireOrg go_small (Some (sample.ready "")) w).1
                    with Ret (ctx, _) => ctx | Panic _ => None end)
         = Some (Some org) ∧
         org ∈ [sample.acme; sample.personal; sample.other].
Proof.
  intros w.
  destruct (@command.RequireOrg go_small (Some (sample.ready "")) w)
    as [[[ctx [e|]]|why] w'] eqn:E; try (vm_compute in E; discriminate).
  destruct (@RequireOrg_outcome go_small go_small_contract (sample.ready "")
              (client.FromToken "tok") _ w eq_refl eq_refl ctx None w' E)
    as (_ & orgs & org & Horgs & Hin & ->).
  vm_compute in Horgs. injection Horgs as <-.
  exists org. split; [reflexivity|exact Hin].
Defined.

(** X9.  With no slug override [RequireOrg] selects as the legacy selector
    does.  Run from the same world, whatever slug the legacy selector is
    given: both fail with the same error, both panic, or [RequireOrg]
    stores the organization the legacy selector returns.  Both take the
    same replies of the user and leave as many events; when the user is
    asked they leave the same world, otherwise they differ in where the
    notice goes (the logger, the standard output). *)
Theorem RequireOrg_as_legacy `{GoSortContract} (f : Facts) (c : Client)
    (cfg : Config) (slug : string) (w : World) :
  f_client f = Some c →
  client.Authenticated c = true →
  f_config f = Some cfg →
  Organization cfg = "" →
  let legacy := command.selectOrganization (client.API c) slug None w in
  let new := command.RequireOrg (Some f) w in
  new.1 = match legacy.1 with
          | Ret (org, None) => Ret (Some (set_org org f), None)
          | Ret (_, Some e) => Ret (None, Some e)
          | Panic why => Panic why
          end ∧
  replies new.2 = replies legacy.2 ∧
  length (events new.2) = length (events legacy.2) ∧
  (∀ orgs, remote_orgs (host w) (api_of c) None = ok orgs →
     command.sole_personal orgs = false → new.2 = legacy.2).
Proof.
  intros Hc Ha Hcfg Hslug legacy new. unfold legacy, new, client.API.
  rewrite Ha. clear legacy new.
  destruct (remote_orgs (host w) (api_of c) None) as [orgs|e] eqn:Horgs.
  2:{ rewrite (RequireOrg_fetch_failed_run f c e w Hc Ha Horgs),
        (selectOrganization_fetch_failed_run _ slug None e w Horgs).
      repeat split. }
  destruct (command.sole_personal orgs) eqn:Hsole.
  - apply sole_personal_iff in Hsole as (org & -> & Hty).
    rewrite (RequireOrg_sole_run f c cfg org w Hc Ha Hcfg Hslug Horgs Hty),
      (selectOrganization_sole _ slug None org w Horgs Hty).
    cbn. split; [reflexivity|]. split; [reflexivity|].
    split; [now rewrite !length_app|].
    intros orgs E. injection E as <-. cbn. rewrite Hty. discriminate.
  - rewrite (RequireOrg_prompt_run f c cfg orgs w Hc Ha Hcfg Hslug Horgs Hsole),
      (selectOrganization_prompt _ slug None orgs w Horgs Hsole).
    destruct (command.selectOrg _ _) as [[[org [e|]]|why] w1]; cbn;
      repeat split.
Qed.

(** The org flag of the legacy command names acme and [RequireOrg] has no
    override; the user picks the second entry in both. *)
Lemma RequireOrg_as_legacy_witness :
  let w := sample.start
             (sample.machine no_layer NotExist (ok [sample.acme; sample.other]))
             [Choose 1] in
  (@command.RequireOrg go_small (Some (sample.ready "")) w).1
    = Ret (Some (set_org (Some sample.other) (sample.ready "")), None) ∧
  (@command.RequireOrg go_small (Some (sample.ready "")) w).2
    = (@command.selectOrganization go_small
         (client.API (client.FromToken "tok")) "acme" None w).2.
Proof.
  intros w.
  destruct (@RequireOrg_as_legacy go_small go_small_contract (sample.ready "")
              (client.FromToken "tok") _ "acme" w eq_refl eq_refl eq_refl eq_refl)
    as (Hres & _ & _ & Hworld).
  split; [rewrite Hres; vm_compute; reflexivity|].
  exact (Hworld _ eq_refl eq_refl).
Defined.

(** ** More on the legacy selector and the move command *)




(** [runMove] from the answer of the selector on. *)
Lemma runMove_run `{GoSort} (cc : CmdContext) (appName : string)
    (rest : list string) (app : api.App) (w : World) :
  Args cc = appName :: rest →
  client.Authenticated (Client_ cc) = true →
  remote_app (host w) (api_of (Client_ cc)) appName = ok app →
  let from := api.Slug (api.AppOrganization app) in
  let move org w3 :=
    match remote_move (host w3) (api_of (Client_ cc)) appName (api.ID org) with
    | ok _ =>
        (Ret None : outcome error,
         logged w3 [MoveApp appName (api.ID org);
                    Printf "Successfully moved %s to %s\n" [appName; api.Slug org]])
    | failed e =>
        (Ret (Some (WithMessage e "Failed to move app")),
         logged w3 [MoveApp appName (api.ID org)])
    end in
  let asked org w2 :=
    prompted (logged w2 [Println cmd.restart_warning])
      (AskConfirm ("Move " ++ appName ++ " from " ++ from ++ " to "
                   ++ api.Slug org ++ "?")%string) in
  cmd.runMove cc w =
  match command.selectOrganization (client.API (Client_ cc))
          (GetString (Config_ cc) "org") None
          (logged w [GetApp appName;
                     Statusf "move" "App '%s' is currently in organization '%s'\n"
                       [api.AppName app; from]]) with
  | (Panic why, w2) => (Panic why, w2)
  | (Ret (org, err), w2) =>
      if cmd.isInterrupt err then (Ret None, w2)
      else match err, org with
           | None, Some org =>
               if GetBool (Config_ cc) "yes" then move org w2
               else match replies w2 with
                    | YesNo true :: _ => move org (asked org w2)
                    | YesNo false :: _ => (Ret None, asked org w2)
                    | Interrupt :: _ => (Ret (Some InterruptErr), asked org w2)
                    | Broken e :: _ => (Ret (Some e), asked org w2)
                    | Choose _ :: _ =>
                        (Ret (Some (errorString "unexpected answer")), asked org w2)
                    | [] => (Ret (Some EOF), asked org w2)
                    end
           | _, _ => (Ret (Some (Errorf_s "Error setting organization: %s" err)), w2)
           end
  end.
Proof.
  intros Hargs Ha Happ from move asked.
  unfold cmd.runMove. rewrite Hargs. unfold api_GetApp, api_MoveApp.
  unfold client.API in *. rewrite Ha in *.
  run. rewrite Happ. run.
  unfold logged at 1. cbn. rewrite <- app_assoc. cbn [Datatypes.app].
  fold from.
  destruct (command.selectOrganization _ _ _ _) as [[[org err]|why] w2];
    [|reflexivity].
  destruct (cmd.isInterrupt err); [reflexivity|].
  destruct err as [e|], org as [org|]; cbn; try reflexivity.
  unfold move, asked, logged, prompted, survey.AskOne_Confirm, fmt.Println, fmt.Printf.
  run.
  destruct (GetBool (Config_ cc) "yes"); cbn.
  - destruct (remote_move _ _ _ _); cbn; rewrite <- ?app_assoc; reflexivity.
  - destruct (replies w2) as [|[i|[|]| |e] rs]; cbn; try reflexivity.
    destruct (remote_move _ _ _ _); cbn; rewrite <- ?app_assoc; reflexivity.
Qed.

(** X11.  When the app cannot be fetched, [runMove] returns the error of
    the remote wrapped as [Error fetching app] and stops: the trace gains
    the fetch of the app alone, no organization is listed, the user is not
    asked and nothing is moved. *)
Theorem runMove_app_fetch_fails `{GoSort} (cc : CmdContext) (appName : string)
    (rest : list string) (e : Err) (w : World) :
  Args cc = appName :: rest →
  client.Authenticated (Client_ cc) = true →
  remote_app (host w) (api_of (Client_ cc)) appName = failed e →
  cmd.runMove cc w
  = (Ret (Some (Wrap e "Error fetching app")), logged w [GetApp appName]).
Proof.
  intros Hargs Ha Happ.
  unfold cmd.runMove. rewrite Hargs. unfold api_GetApp, client.API. rewrite Ha.
  run. rewrite Happ. reflexivity.
Qed.

Lemma runMove_app_fetch_fails_witness :
  let w := sample.start (scenario.two scenario.moved) [Choose 0; YesNo true] in
  @cmd.runMove go_small (scenario.moving_yes "ghost" true) w =
  (Ret (Some (Wrap (errorString "Could not resolve App") "Error fetching app")),
   logged w [GetApp "ghost"]).
Proof.
  intros w.
  exact (@runMove_app_fetch_fails go_small (scenario.moving_yes "ghost" true)
           "ghost" [] _ w eq_refl eq_refl eq_refl).
Defined.

(** X12.  Once the selector has returned an organization, [runMove] asks
    the remote to move the app named by the first argument to that
    organization, by its ID, when the yes flag is set, without asking, or
    when the user answers yes to the confirmation.  A move the remote
    refuses is returned as [Failed to move app] around its error; a move
    done is announced and the command succeeds. *)
Theorem runMove_moves `{GoSort} (cc : CmdContext) (appName : string)
    (rest : list string) (app : api.App) (org : api.Organization)
    (w w2 : World) :
  Args cc = appName :: rest →
  client.Authenticated (Client_ cc) = true →
  remote_app (host w) (api_of (Client_ cc)) appName = ok app →
  let from := api.Slug (api.AppOrganization app) in
  command.selectOrganization (client.API (Client_ cc))
    (GetString (Config_ cc) "org") None
    (logged w [GetApp appName;
               Statusf "move" "App '%s' is currently in organization '%s'\n"
                 [api.AppName app; from]])
  = (Ret (Some org, None), w2) →
  let move w3 :=
    match remote_move (host w3) (api_of (Client_ cc)) appName (api.ID org) with
    | ok _ =>
        (Ret None : outcome error,
         logged w3 [MoveApp appName (api.ID org);
                    Printf "Successfully moved %s to %s\n" [appName; api.Slug org]])
    | failed e =>
        (Ret (Some (WithMessage e "Failed to move app")),
         logged w3 [MoveApp appName (api.ID org)])
    end in
  (GetBool (Config_ cc) "yes" = true → cmd.runMove cc w = move w2) ∧
  (GetBool (Config_ cc) "yes" = false →
   ∀ rs, replies w2 = YesNo true :: rs →
     cmd.runMove cc w =
     move (prompted (logged w2 [Println cmd.restart_warning])
             (AskConfirm ("Move " ++ appName ++ " from " ++ from ++ " to "
                          ++ api.Slug org ++ "?")%string))).
Proof.
  intros Hargs Ha Happ from Hsel move.
  pose proof (runMove_run cc appName rest app w Hargs Ha Happ) as Hrun.
  cbn zeta in Hrun. fold from in Hrun. rewrite Hsel in Hrun. cbn in Hrun.
  split.
  - intros Hyes. now rewrite Hrun, Hyes.
  - intros Hyes rs Hr. now rewrite Hrun, Hyes, Hr.
Qed.

Lemma runMove_moves_witness :
  let done := sample.start (scenario.two scenario.moved) [Choose 1] in
  let refused := sample.start
                   (scenario.two (failed (errorString "not allowed")))
                   [Choose 1] in
  (@cmd.runMove go_small (scenario.moving_yes "myapp" true) done).1 = Ret None ∧
  drop 4 (events (@cmd.runMove go_small (scenario.moving_yes "myapp" true) done).2)
    = [MoveApp "myapp" "3";
       Printf "Successfully moved %s to %s\n" ["myapp"; "other"]] ∧
  (@cmd.runMove go_small (scenario.moving_yes "myapp" true) refused).1
    = Ret (Some (WithMessage (errorString "not allowed") "Failed to move app")).
Proof.
  intros done refused.
  pose (app := {| api.AppName := "myapp"; api.AppOrganization := sample.acme |}).
  pose (sel w := @command.selectOrganization go_small
                   (client.API (client.FromToken "tok")) "" None
                   (logged w [GetApp "myapp";
                              Statusf "move"
                                "App '%s' is currently in organization '%s'\n"
                                ["myapp"; "acme"]])).
  assert (sel done = (Ret (Some sample.other, None), (sel done).2)) as Hdone
    by (vm_compute; reflexivity).
  assert (sel refused = (Ret (Some sample.other, None), (sel refused).2)) as Hrefused
    by (vm_compute; reflexivity).
  pose proof (proj1 (@runMove_moves go_small (scenario.moving_yes "myapp" true)
                       "myapp" [] app sample.other done (sel done).2
                       eq_refl eq_refl eq_refl Hdone) eq_refl) as E1.
  pose proof (proj1 (@runMove_moves go_small (scenario.moving_yes "myapp" true)
                       "myapp" [] app sample.other refused (sel refused).2
                       eq_refl eq_refl eq_refl Hrefused) eq_refl) as E2.
  rewrite E1, E2. repeat split; vm_compute; reflexivity.
Defined.

(** X13.  Without the yes flag [runMove] warns and asks for confirmation
    once the organization is known.  An answer of no ends the command with
    success and nothing asked of the remote.  An error of the confirmation
    prompt is returned as it is, the interrupt of a cancelling user
    included: unlike the choice of the organization, a cancelled
    confirmation is a failure of the command. *)
Theorem runMove_not_confirmed `{GoSort} (cc : CmdContext) (appName : string)
    (rest : list string) (app : api.App) (org : api.Organization)
    (rs : list Reply) (w w2 : World) :
  Args cc = appName :: rest →
  client.Authenticated (Client_ cc) = true →
  remote_app (host w) (api_of (Client_ cc)) appName = ok app →
  let from := api.Slug (api.AppOrganization app) in
  command.selectOrganization (client.API (Client_ cc))
    (GetString (Config_ cc) "org") None
    (logged w [GetApp appName;
               Statusf "move" "App '%s' is currently in organization '%s'\n"
                 [api.AppName app; from]])
  = (Ret (Some org, None), w2) →
  GetBool (Config_ cc) "yes" = false →
  let w3 := prompted (logged w2 [Println cmd.restart_warning])
              (AskConfirm ("Move " ++ appName ++ " from " ++ from ++ " to "
                           ++ api.Slug org ++ "?")%string) in
  (replies w2 = YesNo false :: rs → cmd.runMove cc w = (Ret None, w3)) ∧
  (replies w2 = Interrupt :: rs → cmd.runMove cc w = (Ret (Some InterruptErr), w3)) ∧
  (∀ e, replies w2 = Broken e :: rs → cmd.runMove cc w = (Ret (Some e), w3)).
Proof.
  intros Hargs Ha Happ from Hsel Hyes w3.
  pose proof (runMove_run cc appName rest app w Hargs Ha Happ) as Hrun.
  cbn zeta in Hrun. fold from in Hrun. rewrite Hsel, Hyes in Hrun. cbn in Hrun.
  split; [|split]; [intros Hr|intros Hr|intros e Hr]; now rewrite Hrun, Hr.
Qed.

Lemma runMove_not_confirmed_witness :
  let no := sample.start (scenario.two scenario.moved) [Choose 1; YesNo false] in
  let cancel := sample.start (scenario.two scenario.moved) [Choose 1; Interrupt] in
  let asked := [GetApp "myapp";
                Statusf "move" "App '%s' is currently in organization '%s'\n"
                  ["myapp"; "acme"];
                GetOrganizations None;
                AskSelect "Select organization:" ["Acme (acme)"; "Other (other)"] 15;
                Println cmd.restart_warning;
                AskConfirm "Move myapp from acme to other?"] in
  @cmd.runMove go_small (scenario.moving_yes "myapp" false) no
    = (Ret None, {| host := host no; events := asked; replies := [] |}) ∧
  @cmd.runMove go_small (scenario.moving_yes "myapp" false) cancel
    = (Ret (Some InterruptErr),
       {| host := host cancel; events := asked; replies := [] |}).
Proof.
  intros no cancel asked.
  pose (app := {| api.AppName := "myapp"; api.AppOrganization := sample.acme |}).
  pose (sel w := @command.selectOrganization go_small
                   (client.API (client.FromToken "tok")) "" None
                   (logged w [GetApp "myapp";
                              Statusf "move"
                                "App '%s' is currently in organization '%s'\n"
                                ["myapp"; "acme"]])).
  assert (sel no = (Ret (Some sample.other, None), (sel no).2)) as Hno
    by (vm_compute; reflexivity).
  assert (sel cancel = (Ret (Some sample.other, None), (sel cancel).2)) as Hcancel
    by (vm_compute; reflexivity).
  destruct (@runMove_not_confirmed go_small (scenario.moving_yes "myapp" false)
              "myapp" [] app sample.other [] no (sel no).2
              eq_refl eq_refl eq_refl Hno eq_refl) as (E1 & _ & _).
  destruct (@runMove_not_confirmed go_small (scenario.moving_yes "myapp" false)
              "myapp" [] app sample.other [] cancel (sel cancel).2
              eq_refl eq_refl eq_refl Hcancel eq_refl) as (_ & E2 & _).
  rewrite (E1 eq_refl), (E2 eq_refl). split; vm_compute; reflexivity.
Defined.




(** ** Deploying the app found *)

Lemma none_healthy_spec (allocs : list launch.Allocation) :
  launch.none_healthy allocs = true ↔
  ∀ a, a ∈ allocs → launch.Healthy a = false.
Proof.
  induction allocs as [|a allocs IH]; cbn.
  - split; [|reflexivity]. intros _ a Ha. now apply elem_of_nil in Ha.
  - destruct (launch.Healthy a) eqn:Hh.
    + split; [discriminate|]. intros Hall.
      rewrite (Hall a) in Hh by apply list_elem_of_here. discriminate.
    + rewrite IH. split.
      * intros Hall b Hb. apply elem_of_cons in Hb as [->|Hb]; auto.
      * intros Hall b Hb. apply Hall. now apply list_elem_of_further.
Qed.

(** X15.  [shouldDeployExistingApp] says yes exactly when the status of
    the app could be fetched and the app is not deployed or none of its
    allocations is healthy; a deployed app with a healthy allocation is
    left alone.  When the status cannot be fetched the answer is no: without
    an error if the remote does not know the app (a not-found error, or the
    message [Could not resolve App]), with the error of the remote
    otherwise. *)
Theorem shouldDeployExistingApp_decides `{launch.Remote} (cc : CmdContext)
    (appName : string) (w : World) :
  client.Authenticated (Client_ cc) = true →
  let answer := (launch.shouldDeployExistingApp cc appName w).1 in
  (∀ status,
     launch.remote_status (api_of (Client_ cc)) appName false = ok status →
     ∃ deploy, answer = Ret (deploy, None) ∧
       (deploy = true ↔
        launch.Deployed status = false ∨
        ∀ a, a ∈ launch.Allocations status → launch.Healthy a = false)) ∧
  (∀ e,
     launch.remote_status (api_of (Client_ cc)) appName false = failed e →
     answer = Ret (false,
                   if launch.IsNotFoundError e
                      || String.eqb (launch.Error e) "Could not resolve App"
                   then None else Some e)).
Proof.
  intros Ha answer. unfold answer, launch.shouldDeployExistingApp,
    launch.api_GetAppStatus, client.API. rewrite Ha. run. split.
  - intros status Hst. rewrite Hst. cbn.
    destruct (launch.Deployed status) eqn:Hd; cbn.
    + eexists. split; [reflexivity|]. rewrite none_healthy_spec.
      split; [now right|]. now intros [?|?].
    + eexists. split; [reflexivity|]. split; [now left|reflexivity].
  - intros e Hst. rewrite Hst. cbn.
    now destruct (launch.IsNotFoundError e || _).
Qed.

Lemma shouldDeployExistingApp_decides_witness :
  let cc := scenario.moving_yes "myapp" false in
  let w := sample.start (scenario.two scenario.moved) [] in
  let status deployed allocs :=
    ok {| launch.Deployed := deployed; launch.Allocations := allocs |} in
  (@launch.shouldDeployExistingApp
     (scenario.statuses (status true [scenario.alloc false; scenario.alloc true]))
     cc "myapp" w).1 = Ret (false, None) ∧
  (@launch.shouldDeployExistingApp
     (scenario.statuses (status true [scenario.alloc false]))
     cc "myapp" w).1 = Ret (true, None) ∧
  (@launch.shouldDeployExistingApp
     (scenario.statuses (failed (errorString "Could not resolve App")))
     cc "myapp" w).1 = Ret (false, None) ∧
  (@launch.shouldDeployExistingApp
     (scenario.statuses (failed (errorString "timeout")))
     cc "myapp" w).1 = Ret (false, Some (errorString "timeout")).
Proof.
  intros cc w status.
  split; [|split; [|split]].
  - destruct (proj1 (@shouldDeployExistingApp_decides
                       (scenario.statuses
                          (status true [scenario.alloc false; scenario.alloc true]))
                       cc "myapp" w eq_refl) _ eq_refl) as (deploy & -> & Hiff).
    destruct deploy; [|reflexivity].
    destruct (proj1 Hiff eq_refl) as [Hd|Hall]; [discriminate|].
    specialize (Hall (scenario.alloc true)
                  (list_elem_of_further _ _ _ (list_elem_of_here _ _))).
    discriminate.
  - destruct (proj1 (@shouldDeployExistingApp_decides
                       (scenario.statuses (status true [scenario.alloc false]))
                       cc "myapp" w eq_refl) _ eq_refl) as (deploy & -> & Hiff).
    rewrite (proj2 Hiff); [reflexivity|]. right. intros a Hin.
    apply list_elem_of_singleton in Hin. now subst.
  - exact (proj2 (@shouldDeployExistingApp_decides
                    (scenario.statuses (failed (errorString "Could not resolve App")))
                    cc "myapp" w eq_refl) _ eq_refl).
  - exact (proj2 (@shouldDeployExistingApp_decides
                    (scenario.statuses (failed (errorString "timeout")))
                    cc "myapp" w eq_refl) _ eq_refl).
Defined.
